(** * Consumer-side CCV relay: validator-set ingestion, packet queue and
      acknowledgement handling

    A shallow embedding of the consumer keeper's relay functions
    ([OnRecvVSCPacket], [QueueSlashPacket], [SendPackets],
    [OnAcknowledgementPacket], [IsChannelClosed]) together with the
    properties that the specification states about them.

    The keeper's store is a record; the functions are actions of a small
    state-and-panic monad over a [World] that also carries the IBC channel
    keeper (an interface, hence a type class), the event manager and the
    logger of the context. *)

From Stdlib Require Import ZArith List Lia.
From Stdlib.Strings Require Import Byte.
From stdpp Require Import base option list gmap strings.
Import ListNotations.

Set Warnings "-clear-no-such-hyp".

Local Open Scope string_scope.
Local Open Scope Z_scope.
Local Open Scope list_scope.

(** ** Data of the wire and of the collaborators *)

(** Go byte slices that only serve as identities (consensus addresses,
    public keys) are byte strings. *)
Definition ConsAddress := string.
Definition PubKey := string.
Definition Time := Z.
Definition Duration := Z.

(** stakingtypes.Infraction *)
Inductive Infraction :=
| Infraction_INFRACTION_UNSPECIFIED
| Infraction_INFRACTION_DOUBLE_SIGN
| Infraction_INFRACTION_DOWNTIME.

#[global] Instance Infraction_eq_dec : EqDecision Infraction.
Proof. solve_decision. Defined.

(** abci.Validator and abci.ValidatorUpdate *)
Record Validator := { Address : ConsAddress; VPower : Z }.
Record ValidatorUpdate := { VUPubKey : PubKey; Power : Z }.

#[global] Instance ValidatorUpdate_eq_dec : EqDecision ValidatorUpdate.
Proof. solve_decision. Defined.

(** ccv.ValidatorSetChangePacketData *)
Record ValidatorSetChangePacketData := {
  ValidatorUpdates : list ValidatorUpdate;
  ValsetUpdateId : Z;
  SlashAcks : list string
}.

(** ccv.SlashPacketData and its constructor *)
Record SlashPacketData := {
  SPValidator : Validator;
  SPValsetUpdateId : Z;
  SPInfraction : Infraction
}.

Definition NewSlashPacketData (validator : Validator) (valsetUpdateID : Z)
    (infraction : Infraction) : SlashPacketData :=
  {| SPValidator := validator;
     SPValsetUpdateId := valsetUpdateID;
     SPInfraction := infraction |}.

(** ccv.ConsumerPacketDataType *)
Inductive ConsumerPacketDataType :=
| UnspecifiedPacket
| SlashPacket
| VscMaturedPacket.

#[global] Instance ConsumerPacketDataType_eq_dec : EqDecision ConsumerPacketDataType.
Proof. solve_decision. Defined.

(** The oneof payload of a consumer packet. *)
Inductive ConsumerPacketData_Data :=
| ConsumerPacketData_SlashPacketData (d : SlashPacketData)
| ConsumerPacketData_VscMaturedPacketData (valsetUpdateId : Z).

(** A queued packet together with its store index
    (ConsumerPacketDataWithIdx). *)
Record ConsumerPacketDataWithIdx := {
  Type_ : ConsumerPacketDataType;
  Data : ConsumerPacketData_Data;
  Idx : N
}.

(** What the acknowledgement handler decodes from the packet bytes
    (ConsumerPacketDataV1); only its type is read. *)
Record ConsumerPacketDataV1 := { V1Type : ConsumerPacketDataType }.

(** channeltypes.Packet, the fields the keeper reads. *)
Record Packet := {
  SourcePort : string;
  SourceChannel : string;
  DestinationPort : string;
  DestinationChannel : string;
  GetData : list byte
}.

(** channeltypes.Acknowledgement is a oneof of a result and an error. A Go
    byte slice may be nil, which [GetResult] tests for, so the result is an
    optional list. *)
Inductive Acknowledgement :=
| Acknowledgement_Result (res : option (list byte))
| Acknowledgement_Error (err : string).

Definition GetResult (ack : Acknowledgement) : option (list byte) :=
  match ack with
  | Acknowledgement_Result res => res
  | Acknowledgement_Error _ => None
  end.

Definition GetError (ack : Acknowledgement) : string :=
  match ack with
  | Acknowledgement_Result _ => ""
  | Acknowledgement_Error err => err
  end.

(** channeltypes.State and channeltypes.Channel *)
Inductive ChannelState := UNINITIALIZED | INIT | TRYOPEN | OPEN | CLOSED.

#[global] Instance ChannelState_eq_dec : EqDecision ChannelState.
Proof. solve_decision. Defined.

Record Channel := { State : ChannelState }.

(** Errors. The constructors follow the places where the keeper builds or
    receives an error. *)
Inductive Error :=
| ErrClientNotActive
| ErrNoProposerChannelId
| ErrInvalidPacketData (msg : string)
| ErrCollaborator (msg : string)
| ErrAckResultLength (len : nat)
| ErrUnrecognizedAckResult (b : byte)
| ErrChanCloseInitFailed (channel : string) (cause : Error)
| Wrapf (cause : Error) (msg : string).

#[global] Instance byte_eq_dec : EqDecision byte.
Proof.
  intros x y. destruct (Byte.eqb x y) eqn:E.
  - left. by apply byte_dec_bl.
  - right. by apply eqb_false.
Defined.

#[global] Instance Error_eq_dec : EqDecision Error.
Proof. solve_decision. Defined.

(** errors.Is: the target is looked up along the chain of wrapped causes.
    fmt.Errorf without a wrapping verb starts a new chain. *)
Fixpoint errors_Is (err target : Error) : bool :=
  if decide (err = target) then true
  else match err with
       | Wrapf cause _ => errors_Is cause target
       | _ => false
       end.

(** The value a panic carries. *)
Inductive PanicValue :=
| PanicUnknownChannel (got expected : string)
| PanicUnmarshal.

(** Events of the event manager: the event type with the attribute values
    before they are rendered as text. *)
Inductive Event :=
| EventTypeChannelEstablished (channel port : string)
| EventTypeConsumerSlashRequest (addr : ConsAddress) (valsetUpdateID : Z)
    (infraction : Infraction).

#[global] Instance Event_eq_dec : EqDecision Event.
Proof. solve_decision. Defined.

(** Lines of the logger: level and message. *)
Inductive LogLevel := LogDebug | LogInfo | LogError.

(** Calls made to the IBC channel keeper, recorded in order. *)
Inductive ExternalCall :=
| CallSendPacket (channel port : string) (data : list byte) (timeout : Duration)
| CallChanCloseInit (port channel : string).

(** sdk.Context, the fields the keeper reads. *)
Record Context := { BlockHeight : Z; BlockTime : Time }.

(** ** Collaborators *)

(** The IBC channel keeper is an interface of the keeper; [CK] is the state
    behind it. [channelKeeper_GetChannel] returns the channel and whether it
    was found, as the Go method does. *)
Class ChannelKeeper (CK : Type) := {
  channelKeeper_GetChannel : CK -> string -> string -> Channel * bool;
  channelKeeper_SendPacket :
    CK -> string -> string -> list byte -> Duration -> option Error * CK;
  channelKeeper_ChanCloseInit : CK -> string -> string -> option Error * CK
}.

(** Constants and wire functions of the ccv types package that the keeper
    uses, taken as parameters: the consumer port,
    the single byte of each acknowledgement result, the bech32 decoder of a
    consensus address, the JSON decoder of a sent packet and the encoder of a
    queued one. *)
Class CCVTypes := {
  ConsumerPortID : string;
  V1Result : byte;
  SlashPacketHandledResult : byte;
  SlashPacketBouncedResult : byte;
  GetConsAddrFromBech32 : string -> option ConsAddress;
  UnmarshalJSON : list byte -> option ConsumerPacketDataV1;
  GetBytes : ConsumerPacketDataWithIdx -> list byte
}.

(** ** The slash record *)

(** Modelled from the spec: the slash record of the keeper, whose type and
    whose readers and writers are declared in the throttle-retry part of the
    keeper. The spec gives it a state among Idle, Sending, WaitingForReply and
    WaitingForBackoffAfterBounce, and the time until which a bounced packet
    backs off. *)
Inductive SlashState :=
| Idle
| Sending
| WaitingForReply
| WaitingForBackoffAfterBounce.

#[global] Instance SlashState_eq_dec : EqDecision SlashState.
Proof. solve_decision. Defined.

Record SlashRecord := { state : SlashState; backoffUntil : Time }.

(** Module parameters read by the keeper. *)
Record Params := { CcvTimeoutPeriod : Duration; RetryDelayPeriod : Duration }.

(** ** The world a keeper method runs in *)

Section Keeper.
Context {CK : Type} `{!ChannelKeeper CK} `{!CCVTypes}.

(** The keeper's store entries, the channel keeper behind the interface with
    the calls made to it, and the events and log lines of the context. *)
Record World := {
  params : Params;
  providerChannel : option string;
  pendingChanges : option ValidatorSetChangePacketData;
  heightValsetUpdateID : gmap Z Z;
  outstandingDowntime : gset ConsAddress;
  pendingPackets : list ConsumerPacketDataWithIdx;
  pendingPacketsIdx : N;
  slashRecord : SlashRecord;
  channelKeeper : CK;
  calls : list ExternalCall;
  events : list Event;
  logs : list (LogLevel * string)
}.

Definition with_providerChannel (v : option string) (w : World) : World :=
  Build_World (params w) v (pendingChanges w) (heightValsetUpdateID w)
    (outstandingDowntime w) (pendingPackets w) (pendingPacketsIdx w)
    (slashRecord w) (channelKeeper w) (calls w) (events w) (logs w).

Definition with_pendingChanges (v : option ValidatorSetChangePacketData)
    (w : World) : World :=
  Build_World (params w) (providerChannel w) v (heightValsetUpdateID w)
    (outstandingDowntime w) (pendingPackets w) (pendingPacketsIdx w)
    (slashRecord w) (channelKeeper w) (calls w) (events w) (logs w).

Definition with_heightValsetUpdateID (v : gmap Z Z) (w : World) : World :=
  Build_World (params w) (providerChannel w) (pendingChanges w) v
    (outstandingDowntime w) (pendingPackets w) (pendingPacketsIdx w)
    (slashRecord w) (channelKeeper w) (calls w) (events w) (logs w).

Definition with_outstandingDowntime (v : gset ConsAddress) (w : World) : World :=
  Build_World (params w) (providerChannel w) (pendingChanges w)
    (heightValsetUpdateID w) v (pendingPackets w) (pendingPacketsIdx w)
    (slashRecord w) (channelKeeper w) (calls w) (events w) (logs w).

Definition with_pendingPackets (v : list ConsumerPacketDataWithIdx)
    (w : World) : World :=
  Build_World (params w) (providerChannel w) (pendingChanges w)
    (heightValsetUpdateID w) (outstandingDowntime w) v (pendingPacketsIdx w)
    (slashRecord w) (channelKeeper w) (calls w) (events w) (logs w).

Definition with_pendingPacketsIdx (v : N) (w : World) : World :=
  Build_World (params w) (providerChannel w) (pendingChanges w)
    (heightValsetUpdateID w) (outstandingDowntime w) (pendingPackets w) v
    (slashRecord w) (channelKeeper w) (calls w) (events w) (logs w).

Definition with_slashRecord (v : SlashRecord) (w : World) : World :=
  Build_World (params w) (providerChannel w) (pendingChanges w)
    (heightValsetUpdateID w) (outstandingDowntime w) (pendingPackets w)
    (pendingPacketsIdx w) v (channelKeeper w) (calls w) (events w) (logs w).

Definition with_channelKeeper (v : CK) (w : World) : World :=
  Build_World (params w) (providerChannel w) (pendingChanges w)
    (heightValsetUpdateID w) (outstandingDowntime w) (pendingPackets w)
    (pendingPacketsIdx w) (slashRecord w) v (calls w) (events w) (logs w).

Definition with_calls (v : list ExternalCall) (w : World) : World :=
  Build_World (params w) (providerChannel w) (pendingChanges w)
    (heightValsetUpdateID w) (outstandingDowntime w) (pendingPackets w)
    (pendingPacketsIdx w) (slashRecord w) (channelKeeper w) v (events w) (logs w).

Definition with_events (v : list Event) (w : World) : World :=
  Build_World (params w) (providerChannel w) (pendingChanges w)
    (heightValsetUpdateID w) (outstandingDowntime w) (pendingPackets w)
    (pendingPacketsIdx w) (slashRecord w) (channelKeeper w) (calls w) v (logs w).

Definition with_logs (v : list (LogLevel * string)) (w : World) : World :=
  Build_World (params w) (providerChannel w) (pendingChanges w)
    (heightValsetUpdateID w) (outstandingDowntime w) (pendingPackets w)
    (pendingPacketsIdx w) (slashRecord w) (channelKeeper w) (calls w) (events w) v.

(** ** The monad of keeper methods: state, and a panic aborts *)

Inductive Outcome (A : Type) :=
| Ok (a : A) (w : World)
| Panicked (v : PanicValue).
Arguments Ok {A} a w.
Arguments Panicked {A} v.

Definition M (A : Type) : Type := World -> Outcome A.

Definition ret {A} (a : A) : M A := fun w => Ok a w.

Definition bind {A B} (m : M A) (f : A -> M B) : M B :=
  fun w => match m w with
           | Ok a w' => f a w'
           | Panicked v => Panicked v
           end.

Definition panic {A} (v : PanicValue) : M A := fun _ => Panicked v.
Definition gets {A} (f : World -> A) : M A := fun w => Ok (f w) w.
Definition modify (f : World -> World) : M unit := fun w => Ok tt (f w).

Notation "x <- c ;; k" := (bind c (fun x => k))
  (at level 100, c at next level, right associativity).
Notation "c ;;; k" := (bind c (fun _ => k))
  (at level 100, right associativity).

(** A Go range loop whose body neither breaks nor returns. *)
Fixpoint forEach {A} (l : list A) (body : A -> M unit) : M unit :=
  match l with
  | [] => ret tt
  | x :: rest => body x ;;; forEach rest body
  end.

(** ctx.EventManager().EmitEvent and k.Logger(ctx) *)
Definition EmitEvent (e : Event) : M unit :=
  modify (fun w => with_events (events w ++ [e]) w).

Definition Logger (level : LogLevel) (msg : string) : M unit :=
  modify (fun w => with_logs (logs w ++ [(level, msg)]) w).

(** ** Store accessors and helpers of the keeper and of the ccv types *)

(** Modelled from the spec: the channel binding, an optional single value
    that the getter and the setter of the store read and write. *)
Definition GetProviderChannel : M (option string) := gets providerChannel.

Definition SetProviderChannel (channelID : string) : M unit :=
  modify (with_providerChannel (Some channelID)).

(** Modelled from the spec: the accumulated validator-set change, absent
    until the first batch is stored. *)
Definition GetPendingChanges : M (option ValidatorSetChangePacketData) :=
  gets pendingChanges.

Definition SetPendingChanges (v : ValidatorSetChangePacketData) : M unit :=
  modify (with_pendingChanges (Some v)).

(** Modelled from the spec: the mapping from a local block height to the
    identifier of the batch applied at that height. *)
Definition SetHeightValsetUpdateID (height valsetUpdateID : Z) : M unit :=
  modify (fun w =>
    with_heightValsetUpdateID (<[height := valsetUpdateID]> (heightValsetUpdateID w)) w).

(** Modelled from the spec: the set of validator identities with a downtime
    slash claim in flight. *)
Definition OutstandingDowntime (consAddr : ConsAddress) : M bool :=
  gets (fun w => bool_decide (consAddr ∈ outstandingDowntime w)).

Definition SetOutstandingDowntime (consAddr : ConsAddress) : M unit :=
  modify (fun w => with_outstandingDowntime ({[consAddr]} ∪ outstandingDowntime w) w).

Definition DeleteOutstandingDowntime (consAddr : ConsAddress) : M unit :=
  modify (fun w => with_outstandingDowntime (outstandingDowntime w ∖ {[consAddr]}) w).

(** Modelled from the spec: the pending packet queue, an ordered sequence of
    entries with a monotonic index, FIFO by insertion index. Appending takes
    the next index; deleting by index keeps the survivors in order; deleting
    the head removes the first entry. *)
Definition GetAllPendingPacketsWithIdx : M (list ConsumerPacketDataWithIdx) :=
  gets pendingPackets.

Definition AppendPendingPacket (packetType : ConsumerPacketDataType)
    (data : ConsumerPacketData_Data) : M unit :=
  modify (fun w =>
    let idx := pendingPacketsIdx w in
    with_pendingPacketsIdx (idx + 1)%N
      (with_pendingPackets
         (pendingPackets w ++ [{| Type_ := packetType; Data := data; Idx := idx |}]) w)).

Definition DeletePendingDataPackets (idxs : list N) : M unit :=
  modify (fun w =>
    with_pendingPackets
      (filter (fun p => Idx p ∉ idxs) (pendingPackets w)) w).

Definition DeleteHeadOfPendingPackets : M unit :=
  modify (fun w => with_pendingPackets (tail (pendingPackets w)) w).

(** Modelled from the spec: the slash record governs whether the queue may
    advance. Sending is refused while a reply is awaited and, after a bounce,
    until the backoff has elapsed. *)
Definition PacketSendingPermitted (ctx : Context) : M bool :=
  gets (fun w =>
    match state (slashRecord w) with
    | Idle | Sending => true
    | WaitingForReply => false
    | WaitingForBackoffAfterBounce =>
        bool_decide (backoffUntil (slashRecord w) ≤ BlockTime ctx)
    end).

(** Modelled from the spec: a sent slash packet moves the record to
    WaitingForReply. *)
Definition UpdateSlashRecordOnSend (ctx : Context) : M unit :=
  modify (fun w =>
    with_slashRecord
      {| state := WaitingForReply; backoffUntil := backoffUntil (slashRecord w) |} w).

(** Modelled from the spec: a bounce moves the record to
    WaitingForBackoffAfterBounce with a computed end of the backoff, here the
    block time plus the retry delay period. *)
Definition UpdateSlashRecordOnBounce (ctx : Context) : M unit :=
  modify (fun w =>
    with_slashRecord
      {| state := WaitingForBackoffAfterBounce;
         backoffUntil := BlockTime ctx + RetryDelayPeriod (params w) |} w).

(** Modelled from the spec: clearing puts the record back to Idle. *)
Definition ClearSlashRecord : M unit :=
  modify (with_slashRecord {| state := Idle; backoffUntil := 0 |}).

Definition GetCCVTimeoutPeriod : M Duration :=
  gets (fun w => CcvTimeoutPeriod (params w)).

(** Modelled from the spec: the transport send, which answers ok or an error;
    the error of a client that is no longer active is [ErrClientNotActive].
    The call is recorded. *)
Definition SendIBCPacket (ctx : Context) (sourceChannelID sourcePortID : string)
    (packetData : list byte) (timeoutPeriod : Duration) : M (option Error) :=
  fun w =>
    let '(err, ck) :=
      channelKeeper_SendPacket (channelKeeper w) sourcePortID sourceChannelID
        packetData timeoutPeriod in
    Ok err
      (with_calls
         (calls w ++ [CallSendPacket sourceChannelID sourcePortID packetData timeoutPeriod])
         (with_channelKeeper ck w)).

(** Modelled from the spec: the close action of the transport, which answers
    ok or an error. The call is recorded. *)
Definition ChanCloseInit (ctx : Context) (portID channelID : string) : M (option Error) :=
  fun w =>
    let '(err, ck) := channelKeeper_ChanCloseInit (channelKeeper w) portID channelID in
    Ok err
      (with_calls (calls w ++ [CallChanCloseInit portID channelID])
         (with_channelKeeper ck w)).

(** Modelled from the spec: validation of an inbound batch, which rejects a
    batch with an empty validator identity or with the same identity twice. *)
Definition Validate (vsc : ValidatorSetChangePacketData) : option Error :=
  let ids := map VUPubKey (ValidatorUpdates vsc) in
  if bool_decide ("" ∈ ids) then
    Some (ErrInvalidPacketData "empty validator identity")
  else if bool_decide (NoDup ids) then None
  else Some (ErrInvalidPacketData "duplicate validator identity").

(** Modelled from the spec: merging one update into the accumulated
    sequence. An update for a validator already present overwrites its power
    in place; a new validator is appended. *)
Fixpoint mergeUpdate (u : ValidatorUpdate) (acc : list ValidatorUpdate)
    : list ValidatorUpdate :=
  match acc with
  | [] => [u]
  | v :: rest =>
      if decide (VUPubKey v = VUPubKey u) then u :: rest
      else v :: mergeUpdate u rest
  end.

(** Modelled from the spec: the accumulation of a batch into the pending
    changes (AccumulateChanges of the ccv types package), last write wins per
    validator identity, the order of first appearance preserved. *)
Definition AccumulateChanges (currentChanges newChanges : list ValidatorUpdate)
    : list ValidatorUpdate :=
  fold_left (fun acc u => mergeUpdate u acc) newChanges currentChanges.

(** uint64(x) of an int64 and addition in uint64 *)
Definition uint64 (x : Z) : Z := x mod 2 ^ 64.

(** ** The keeper methods *)

Definition OnRecvVSCPacket (ctx : Context) (packet : Packet)
    (newChanges : ValidatorSetChangePacketData) : M (option Error) :=
  match Validate newChanges with
  | Some err => ret (Some (Wrapf err "error validating VSCPacket data"))
  | None =>
    found <- GetProviderChannel ;;
    match found with
    | Some providerChannel =>
        if decide (providerChannel ≠ DestinationChannel packet)
        then panic (PanicUnknownChannel (DestinationChannel packet) providerChannel)
        else ret tt
    | None =>
        SetProviderChannel (DestinationChannel packet) ;;;
        Logger LogInfo "CCV channel established" ;;;
        EmitEvent (EventTypeChannelEstablished (DestinationChannel packet)
                     (DestinationPort packet))
    end ;;;
    currentChanges <- GetPendingChanges ;;
    let currentValUpdates :=
      match currentChanges with
      | Some c => ValidatorUpdates c
      | None => []
      end in
    let pendingChanges :=
      AccumulateChanges currentValUpdates (ValidatorUpdates newChanges) in
    SetPendingChanges
      {| ValidatorUpdates := pendingChanges; ValsetUpdateId := 0; SlashAcks := [] |} ;;;
    let blockHeight := uint64 (uint64 (BlockHeight ctx) + 1) in
    SetHeightValsetUpdateID blockHeight (ValsetUpdateId newChanges) ;;;
    Logger LogDebug "block height was mapped to vscID" ;;;
    forEach (SlashAcks newChanges) (fun ack =>
      match GetConsAddrFromBech32 ack with
      | None => Logger LogError "invalid consensus address in VSCPacket.SlashAcks"
      | Some consAddr => DeleteOutstandingDowntime consAddr
      end) ;;;
    Logger LogInfo "finished receiving/handling VSCPacket" ;;;
    ret None
  end.

Definition QueueSlashPacket (ctx : Context) (validator : Validator)
    (valsetUpdateID : Z) (infraction : Infraction) : M unit :=
  let consAddr := Address validator in
  let downtime := bool_decide (infraction = Infraction_INFRACTION_DOWNTIME) in
  skip <- (if downtime then OutstandingDowntime consAddr else ret false) ;;
  if skip then ret tt
  else
    (if downtime then SetOutstandingDowntime consAddr else ret tt) ;;;
    let slashPacket := NewSlashPacketData validator valsetUpdateID infraction in
    AppendPendingPacket SlashPacket (ConsumerPacketData_SlashPacketData slashPacket) ;;;
    Logger LogInfo "SlashPacket enqueued" ;;;
    EmitEvent (EventTypeConsumerSlashRequest (Address validator) valsetUpdateID infraction).

(** The range loop of [SendPackets] over the pending packets. Every break
    leaves the loop with the indexes collected so far. *)
Fixpoint SendPackets_loop (ctx : Context) (channelID : string)
    (pending : list ConsumerPacketDataWithIdx) (idxsForDeletion : list N)
    : M (list N) :=
  match pending with
  | [] => ret idxsForDeletion
  | p :: rest =>
    permitted <- PacketSendingPermitted ctx ;;
    if negb permitted then ret idxsForDeletion
    else
      timeoutPeriod <- GetCCVTimeoutPeriod ;;
      err <- SendIBCPacket ctx channelID ConsumerPortID (GetBytes p) timeoutPeriod ;;
      match err with
      | Some err =>
          if errors_Is err ErrClientNotActive then
            Logger LogInfo
              "IBC client is expired, cannot send IBC packet; leaving packet data stored:" ;;;
            ret idxsForDeletion
          else
            Logger LogError "cannot send IBC packet; leaving packet data stored:" ;;;
            ret idxsForDeletion
      | None =>
          if decide (Type_ p = SlashPacket) then
            UpdateSlashRecordOnSend ctx ;;;
            ret idxsForDeletion
          else SendPackets_loop ctx channelID rest (idxsForDeletion ++ [Idx p])
      end
  end.

Definition SendPackets (ctx : Context) : M unit :=
  ok <- GetProviderChannel ;;
  match ok with
  | None => ret tt
  | Some channelID =>
      pending <- GetAllPendingPacketsWithIdx ;;
      idxsForDeletion <- SendPackets_loop ctx channelID pending [] ;;
      DeletePendingDataPackets idxsForDeletion
  end.

(** The second block of [OnAcknowledgementPacket], reached when the first
    one is skipped or falls through: the handling of an error
    acknowledgement. *)
Definition OnAcknowledgementPacket_error (ctx : Context) (packet : Packet)
    (ack : Acknowledgement) : M (option Error) :=
  if decide (GetError ack ≠ "") then
    Logger LogError "recv ErrorAcknowledgement" ;;;
    err <- ChanCloseInit ctx (SourcePort packet) (SourceChannel packet) ;;
    match err with
    | Some err => ret (Some (ErrChanCloseInitFailed (SourceChannel packet) err))
    | None =>
        found <- GetProviderChannel ;;
        match found with
        | None =>
            ret (Some (Wrapf ErrNoProposerChannelId
                         "recv ErrorAcknowledgement on non-established channel"))
        | Some channelID =>
            if decide (channelID ≠ SourceChannel packet)
            then ChanCloseInit ctx ConsumerPortID channelID
            else ret None
        end
    end
  else ret None.

Definition OnAcknowledgementPacket (ctx : Context) (packet : Packet)
    (ack : Acknowledgement) : M (option Error) :=
  match GetResult ack with
  | Some res =>
      match res with
      | [res0] =>
          match UnmarshalJSON (GetData packet) with
          | None => panic PanicUnmarshal
          | Some consumerPacket =>
              if decide (V1Type consumerPacket = VscMaturedPacket) then ret None
              else if decide (res0 = V1Result) then
                ClearSlashRecord ;;;
                DeleteHeadOfPendingPackets ;;;
                OnAcknowledgementPacket_error ctx packet ack
              else if decide (res0 = SlashPacketHandledResult) then
                ClearSlashRecord ;;;
                DeleteHeadOfPendingPackets ;;;
                OnAcknowledgementPacket_error ctx packet ack
              else if decide (res0 = SlashPacketBouncedResult) then
                UpdateSlashRecordOnBounce ctx ;;;
                OnAcknowledgementPacket_error ctx packet ack
              else ret (Some (ErrUnrecognizedAckResult res0))
          end
      | _ => ret (Some (ErrAckResultLength (length res)))
      end
  | None => OnAcknowledgementPacket_error ctx packet ack
  end.

Definition IsChannelClosed (ctx : Context) (channelID : string) : M bool :=
  gets (fun w =>
    let '(channel, found) :=
      channelKeeper_GetChannel (channelKeeper w) ConsumerPortID channelID in
    if negb found || bool_decide (State channel = CLOSED) then true else false).

End Keeper.

Arguments World CK : clear implicits.
Arguments Outcome CK A : clear implicits.
Arguments M CK A : clear implicits.
Arguments Ok {CK A} a w.
Arguments Panicked {CK A} v.

(** ** Test doubles

    A scripted channel keeper in the manner of the mocked keepers of the unit
    test helpers: the channels it knows, and the answers it gives to the
    successive sends and close requests (ok once a script is used up). *)
Record MockChannelKeeper := {
  mockChannels : list (string * string * Channel);
  mockSendPacket : list (option Error);
  mockChanCloseInit : list (option Error)
}.

Definition mockGetChannel (ck : MockChannelKeeper) (portID channelID : string)
    : Channel * bool :=
  match list_find (fun e => e.1 = (portID, channelID)) (mockChannels ck) with
  | Some (_, (_, channel)) => (channel, true)
  | None => ({| State := UNINITIALIZED |}, false)
  end.

#[global] Instance MockChannelKeeper_ChannelKeeper : ChannelKeeper MockChannelKeeper := {
  channelKeeper_GetChannel := mockGetChannel;
  channelKeeper_SendPacket ck _ _ _ _ :=
    (default None (head (mockSendPacket ck)),
     {| mockChannels := mockChannels ck;
        mockSendPacket := tail (mockSendPacket ck);
        mockChanCloseInit := mockChanCloseInit ck |});
  channelKeeper_ChanCloseInit ck _ _ :=
    (default None (head (mockChanCloseInit ck)),
     {| mockChannels := mockChannels ck;
        mockSendPacket := mockSendPacket ck;
        mockChanCloseInit := tail (mockChanCloseInit ck) |})
}.

(** Values of the ccv types for the examples: the consumer port, result bytes
    1, 2 and 3, and a one-byte wire form that carries the packet type. *)
Definition mockGetBytes (p : ConsumerPacketDataWithIdx) : list byte :=
  match Type_ p with
  | UnspecifiedPacket => [x00]
  | SlashPacket => [x01]
  | VscMaturedPacket => [x02]
  end.

Definition mockUnmarshalJSON (bz : list byte) : option ConsumerPacketDataV1 :=
  match bz with
  | [x00] => Some {| V1Type := UnspecifiedPacket |}
  | [x01] => Some {| V1Type := SlashPacket |}
  | [x02] => Some {| V1Type := VscMaturedPacket |}
  | _ => None
  end.

#[global] Instance MockCCVTypes : CCVTypes := {
  ConsumerPortID := "consumer";
  V1Result := x01;
  SlashPacketHandledResult := x02;
  SlashPacketBouncedResult := x03;
  GetConsAddrFromBech32 s := if decide (s = "") then None else Some s;
  UnmarshalJSON := mockUnmarshalJSON;
  GetBytes := mockGetBytes
}.

Definition mockKeeper0 : MockChannelKeeper :=
  {| mockChannels := [("consumer", "channel-0", {| State := OPEN |});
                      ("consumer", "channel-9", {| State := CLOSED |})];
     mockSendPacket := [];
     mockChanCloseInit := [] |}.

(** A fresh consumer: nothing bound, nothing queued. *)
Definition world0 : World MockChannelKeeper :=
  {| params := {| CcvTimeoutPeriod := 100; RetryDelayPeriod := 10 |};
     providerChannel := None;
     pendingChanges := None;
     heightValsetUpdateID := ∅;
     outstandingDowntime := ∅;
     pendingPackets := [];
     pendingPacketsIdx := 0%N;
     slashRecord := {| state := Idle; backoffUntil := 0 |};
     channelKeeper := mockKeeper0;
     calls := [];
     events := [];
     logs := [] |}.

Definition ctx0 : Context := {| BlockHeight := 7; BlockTime := 1000 |}.

Definition packetOn (channel : string) (bz : list byte) : Packet :=
  {| SourcePort := "consumer"; SourceChannel := channel;
     DestinationPort := "consumer"; DestinationChannel := channel;
     GetData := bz |}.

(** Example entries of the queue and example worlds: a consumer bound to
    channel-0, and one whose slash packet for V1 has been sent and awaits its
    reply, with a matured update queued behind it. *)
Definition validatorV1 : Validator := {| Address := "V1"; VPower := 10 |}.

Definition slashV1 : ConsumerPacketDataWithIdx :=
  {| Type_ := SlashPacket;
     Data := ConsumerPacketData_SlashPacketData
               (NewSlashPacketData validatorV1 1 Infraction_INFRACTION_DOWNTIME);
     Idx := 0%N |}.

Definition maturedU1 : ConsumerPacketDataWithIdx :=
  {| Type_ := VscMaturedPacket;
     Data := ConsumerPacketData_VscMaturedPacketData 1;
     Idx := 1%N |}.

Definition worldBound : World MockChannelKeeper :=
  with_providerChannel (Some "channel-0") world0.

Definition worldSlashSent : World MockChannelKeeper :=
  with_slashRecord {| state := WaitingForReply; backoffUntil := 0 |}
    (with_pendingPacketsIdx 2%N
       (with_pendingPackets [slashV1; maturedU1]
          (with_outstandingDowntime {["V1"]} worldBound))).

(** The validator updates accumulated so far (currentValUpdates in
    [OnRecvVSCPacket]): those of the stored pending changes, none if nothing
    is stored. *)
Definition currentValUpdates `{!ChannelKeeper CK} (w : World CK) : list ValidatorUpdate :=
  match pendingChanges w with
  | Some c => ValidatorUpdates c
  | None => []
  end.

Definition maturedU0 : ConsumerPacketDataWithIdx :=
  {| Type_ := VscMaturedPacket;
     Data := ConsumerPacketData_VscMaturedPacketData 0;
     Idx := 0%N |}.

Definition slashV2 : ConsumerPacketDataWithIdx :=
  {| Type_ := SlashPacket;
     Data := ConsumerPacketData_SlashPacketData
               (NewSlashPacketData {| Address := "V2"; VPower := 20 |} 1
                  Infraction_INFRACTION_DOUBLE_SIGN);
     Idx := 2%N |}.

(** A bound consumer with two matured updates and a slash packet queued,
    whose channel keeper accepts the first send and answers the second with
    the error of an inactive client. *)
Definition worldClientExpired : World MockChannelKeeper :=
  with_channelKeeper
    {| mockChannels := mockChannels mockKeeper0;
       mockSendPacket := [None; Some ErrClientNotActive];
       mockChanCloseInit := [] |}
    (with_pendingPacketsIdx 3%N
       (with_pendingPackets [maturedU0; maturedU1; slashV2] worldBound)).

(** ** Runs and derived notions used by the statements *)

(** A sequence of deliveries of validator-set changes, one call of
    [OnRecvVSCPacket] after the other, with the error each call returns. A
    panic aborts the run. *)
Fixpoint OnRecvVSCPackets `{!ChannelKeeper CK} `{!CCVTypes}
    (inputs : list (Context * Packet * ValidatorSetChangePacketData))
    (w : World CK) : Outcome CK (list (option Error)) :=
  match inputs with
  | [] => Ok [] w
  | (ctx, packet, newChanges) :: rest =>
      match OnRecvVSCPacket ctx packet newChanges w with
      | Ok err w' =>
          match OnRecvVSCPackets rest w' with
          | Ok errs w'' => Ok (err :: errs) w''
          | Panicked v => Panicked v
          end
      | Panicked v => Panicked v
      end
  end.

(** A sequence of ticks: [SendPackets] once per block, with the context of
    each block. *)
Fixpoint SendPacketsTicks `{!ChannelKeeper CK} `{!CCVTypes}
    (ctxs : list Context) (w : World CK) : Outcome CK unit :=
  match ctxs with
  | [] => Ok tt w
  | ctx :: rest =>
      match SendPackets ctx w with
      | Ok _ w' => SendPacketsTicks rest w'
      | Panicked v => Panicked v
      end
  end.

(** The call that sends a queued entry. *)
Definition sendOf `{!ChannelKeeper CK} `{!CCVTypes} (channelID : string)
    (w : World CK) (p : ConsumerPacketDataWithIdx) : ExternalCall :=
  CallSendPacket channelID ConsumerPortID (GetBytes p) (CcvTimeoutPeriod (params w)).

(** The loop of [SendPackets] passes over a run of entries: for each of
    them sending is permitted, the entry is sent with success and it is not a
    slash packet, so that the loop goes on to the next entry. *)
Inductive SentAll `{!ChannelKeeper CK} `{!CCVTypes} (ctx : Context) (channelID : string)
    : list ConsumerPacketDataWithIdx -> World CK -> World CK -> Prop :=
| SentAll_nil w : SentAll ctx channelID [] w w
| SentAll_cons q pre w ck w1 :
    PacketSendingPermitted ctx w = Ok true w ->
    channelKeeper_SendPacket (channelKeeper w) ConsumerPortID channelID
      (GetBytes q) (CcvTimeoutPeriod (params w)) = (None, ck) ->
    Type_ q ≠ SlashPacket ->
    SentAll ctx channelID pre
      (with_calls (calls w ++ [sendOf channelID w q]) (with_channelKeeper ck w)) w1 ->
    SentAll ctx channelID (q :: pre) w w1.

(** The indexes of the queue identify its entries: they are distinct and
    below the next index to give out. *)
Definition queueIndexed `{!ChannelKeeper CK} (w : World CK) : Prop :=
  NoDup (map Idx (pendingPackets w))
  ∧ Forall (fun q => (Idx q < pendingPacketsIdx w)%N) (pendingPackets w).

(** All validator updates of a run, in the order of arrival. *)
Definition updatesOf (inputs : list (Context * Packet * ValidatorSetChangePacketData))
    : list ValidatorUpdate :=
  concat (map (fun input => ValidatorUpdates input.2) inputs).

(** The identities of a sequence in the order of their first appearance,
    after the words of the spec. *)
Fixpoint firstAppearance (keys : list PubKey) : list PubKey :=
  match keys with
  | [] => []
  | k :: rest => k :: filter (fun k' => k' ≠ k) (firstAppearance rest)
  end.

(** The most recent update of an identity in a sequence of updates, after the
    words of the spec. *)
Definition latestUpdate (k : PubKey) (updates : list ValidatorUpdate)
    : option ValidatorUpdate :=
  last (filter (fun u => VUPubKey u = k) updates).

(** The channel-established events among the events of a world. *)
Definition isChannelEstablished (e : Event) : bool :=
  match e with
  | EventTypeChannelEstablished _ _ => true
  | _ => false
  end.

Definition establishedCount `{!ChannelKeeper CK} (w : World CK) : nat :=
  length (List.filter isChannelEstablished (events w)).

Definition scenarioA : list (Context * Packet * ValidatorSetChangePacketData) :=
  [ (ctx0, packetOn "channel-0" [],
     {| ValidatorUpdates := [ {| VUPubKey := "V1"; Power := 10 |};
                              {| VUPubKey := "V2"; Power := 20 |} ];
        ValsetUpdateId := 1; SlashAcks := [] |});
    (ctx0, packetOn "channel-0" [],
     {| ValidatorUpdates := [ {| VUPubKey := "V1"; Power := 15 |} ];
        ValsetUpdateId := 2; SlashAcks := [] |}) ].

(** A batch that acknowledges the downtime slash of V1 and carries a
    malformed acknowledgement besides. *)
Definition ackBatch : ValidatorSetChangePacketData :=
  {| ValidatorUpdates := [ {| VUPubKey := "V1"; Power := 5 |} ];
     ValsetUpdateId := 3;
     SlashAcks := ["V1"; ""] |}.

#[global] Instance LogLevel_eq_dec : EqDecision LogLevel.
Proof. solve_decision. Defined.

(** The error line that [OnRecvVSCPacket] logs for a malformed slash
    acknowledgement. *)
Definition invalidSlashAckLine : LogLevel * string :=
  (LogError, "invalid consensus address in VSCPacket.SlashAcks").

(** What the loop over the slash acknowledgements of [OnRecvVSCPacket] does
    to the outstanding-downtime set and to the log: the addresses that the
    acknowledgements decode to are removed, and one error line is logged per
    acknowledgement that does not decode. *)
Definition clearAcked `{!CCVTypes} (acks : list string)
    (downtime : gset ConsAddress) : gset ConsAddress :=
  downtime ∖ list_to_set (omap GetConsAddrFromBech32 acks).

Definition invalidAckLines `{!CCVTypes} (acks : list string)
    : list (LogLevel * string) :=
  replicate (length (filter (fun ack => GetConsAddrFromBech32 ack = None) acks))
    invalidSlashAckLine.

Arguments clearAcked : simpl never.
Arguments invalidAckLines : simpl never.

(** One call of a keeper method that returns: a step of the consumer. Runs of
    calls are the reflexive transitive closure of the steps. *)
Inductive KeeperStep `{!ChannelKeeper CK} `{!CCVTypes} : World CK -> World CK -> Prop :=
| Step_OnRecvVSCPacket ctx packet newChanges err w w' :
    OnRecvVSCPacket ctx packet newChanges w = Ok err w' -> KeeperStep w w'
| Step_QueueSlashPacket ctx validator valsetUpdateID infraction w w' :
    QueueSlashPacket ctx validator valsetUpdateID infraction w = Ok tt w' ->
    KeeperStep w w'
| Step_SendPackets ctx w w' :
    SendPackets ctx w = Ok tt w' -> KeeperStep w w'
| Step_OnAcknowledgementPacket ctx packet ack err w w' :
    OnAcknowledgementPacket ctx packet ack w = Ok err w' -> KeeperStep w w'.

(** A slash packet is the head of the queue. *)
Definition slashAtHead `{!ChannelKeeper CK} (w : World CK) : Prop :=
  ∃ p rest, pendingPackets w = p :: rest ∧ Type_ p = SlashPacket.

(** ** Properties *)

(** Unfolding of the monad and of the store accessors. *)
Ltac run :=
  unfold GetProviderChannel, SetProviderChannel,
    GetPendingChanges, SetPendingChanges, SetHeightValsetUpdateID,
    OutstandingDowntime, SetOutstandingDowntime, DeleteOutstandingDowntime,
    GetAllPendingPacketsWithIdx, AppendPendingPacket, DeletePendingDataPackets,
    DeleteHeadOfPendingPackets, PacketSendingPermitted, UpdateSlashRecordOnSend,
    UpdateSlashRecordOnBounce, ClearSlashRecord, GetCCVTimeoutPeriod,
    SendIBCPacket, ChanCloseInit, EmitEvent, Logger in *;
  unfold bind, ret, gets, modify, panic in *;
  simpl in *.

Ltac unfold_with :=
  unfold with_providerChannel, with_pendingChanges, with_heightValsetUpdateID,
    with_outstandingDowntime, with_pendingPackets, with_pendingPacketsIdx,
    with_slashRecord, with_channelKeeper, with_calls, with_events, with_logs in *;
  simpl in *.

(** After the loop over the slash acknowledgements, by its frame lemma in the
    context. *)
Ltac after_slashAcks_loop :=
  match goal with
  | Hloop : ∀ w0, ∃ d l, forEach _ _ w0 = _ |- context [forEach _ _ ?w1] =>
      destruct (Hloop w1) as (? & ? & ->)
  end.

(** *** The state of a channel *)

(** C10: [IsChannelClosed] answers true when the channel is not found and when
    it is found in the CLOSED state, and answers false exactly when the
    channel is found in another state; it changes nothing. *)
Theorem IsChannelClosed_found_or_closed `{!ChannelKeeper CK} `{!CCVTypes}
    (ctx : Context) (channelID : string) (w : World CK) channel found :
  channelKeeper_GetChannel (channelKeeper w) ConsumerPortID channelID = (channel, found) ->
  ∃ b, IsChannelClosed ctx channelID w = Ok b w
       ∧ (b = true ↔ found = false ∨ State channel = CLOSED)
       ∧ (b = false ↔ found = true ∧ State channel ≠ CLOSED).
Proof.
  intros Hget. unfold IsChannelClosed, gets. rewrite Hget.
  destruct found, (decide (State channel = CLOSED)) as [Hc|Hc]; simpl;
    rewrite ?(bool_decide_eq_true_2 _ Hc), ?(bool_decide_eq_false_2 _ Hc);
    eexists; (split; [reflexivity|]); intuition congruence.
Qed.

Lemma IsChannelClosed_found_or_closed_witness :
  ∃ b, IsChannelClosed ctx0 "channel-404" world0 = Ok b world0
       ∧ (b = true ↔ false = false ∨ UNINITIALIZED = CLOSED)
       ∧ (b = false ↔ false = true ∧ UNINITIALIZED ≠ CLOSED).
Proof.
  apply (IsChannelClosed_found_or_closed ctx0 "channel-404" world0
           {| State := UNINITIALIZED |} false).
  reflexivity.
Defined.

(** *** Acknowledgements *)

(** C9: on a result acknowledgement of one byte for a packet that decodes as
    a matured-update packet, [OnAcknowledgementPacket] returns nil and leaves
    the world as it was, whatever that byte is. *)
Theorem OnAcknowledgementPacket_matured_any_byte `{!ChannelKeeper CK} `{!CCVTypes}
    (ctx : Context) (packet : Packet) (res0 : byte) (w : World CK) :
  UnmarshalJSON (GetData packet) = Some {| V1Type := VscMaturedPacket |} ->
  OnAcknowledgementPacket ctx packet (Acknowledgement_Result (Some [res0])) w
  = Ok None w.
Proof.
  intros Hdec. unfold OnAcknowledgementPacket. simpl. rewrite Hdec. simpl.
  reflexivity.
Qed.

Lemma OnAcknowledgementPacket_matured_any_byte_witness :
  OnAcknowledgementPacket ctx0 (packetOn "channel-0" [x02])
    (Acknowledgement_Result (Some [xff])) world0
  = Ok None world0.
Proof.
  apply (OnAcknowledgementPacket_matured_any_byte ctx0 (packetOn "channel-0" [x02]) xff world0).
  reflexivity.
Defined.

(** C4: on a result acknowledgement of one byte for a packet that does not
    decode as a matured-update packet, the byte decides. The V1 result and the
    slash-handled result clear the slash record and remove the head of the
    queue; the slash-bounced result puts the slash record in the backoff state
    and leaves the queue as it is; any other byte is returned as an error, the
    world untouched. *)
Theorem OnAcknowledgementPacket_slash_dispatch `{!ChannelKeeper CK} `{!CCVTypes}
    (ctx : Context) (packet : Packet) (res0 : byte) (w : World CK) consumerPacket :
  UnmarshalJSON (GetData packet) = Some consumerPacket ->
  V1Type consumerPacket ≠ VscMaturedPacket ->
  let result := OnAcknowledgementPacket ctx packet (Acknowledgement_Result (Some [res0])) w in
  (res0 = V1Result ∨ res0 = SlashPacketHandledResult ->
     result = Ok None
       (with_pendingPackets (tail (pendingPackets w))
          (with_slashRecord {| state := Idle; backoffUntil := 0 |} w)))
  ∧ (res0 ≠ V1Result -> res0 ≠ SlashPacketHandledResult ->
     res0 = SlashPacketBouncedResult ->
     ∃ w', result = Ok None w'
           ∧ state (slashRecord w') = WaitingForBackoffAfterBounce
           ∧ pendingPackets w' = pendingPackets w
           ∧ w' = with_slashRecord
                    {| state := WaitingForBackoffAfterBounce;
                       backoffUntil := BlockTime ctx + RetryDelayPeriod (params w) |} w)
  ∧ (res0 ≠ V1Result -> res0 ≠ SlashPacketHandledResult ->
     res0 ≠ SlashPacketBouncedResult ->
     result = Ok (Some (ErrUnrecognizedAckResult res0)) w).
Proof.
  intros Hdec Hty result. subst result.
  unfold OnAcknowledgementPacket, OnAcknowledgementPacket_error. simpl.
  rewrite Hdec. rewrite (decide_False _ _ Hty).
  split; [|split].
  - intros [-> | ->].
    + rewrite decide_True by done. reflexivity.
    + destruct (decide (SlashPacketHandledResult = V1Result)); [done|].
      rewrite decide_True by done. reflexivity.
  - intros H1 H2 ->. rewrite !decide_False by done. rewrite decide_True by done.
    eexists. split; [reflexivity|]. done.
  - intros H1 H2 H3. rewrite !decide_False by done. reflexivity.
Qed.

Lemma OnAcknowledgementPacket_slash_dispatch_witness :
  OnAcknowledgementPacket ctx0 (packetOn "channel-0" [x01])
    (Acknowledgement_Result (Some [x02])) worldSlashSent
  = Ok None
      (with_pendingPackets [maturedU1]
         (with_slashRecord {| state := Idle; backoffUntil := 0 |} worldSlashSent)).
Proof.
  destruct (OnAcknowledgementPacket_slash_dispatch ctx0 (packetOn "channel-0" [x01])
              x02 worldSlashSent {| V1Type := SlashPacket |}) as (Hclear & _ & _);
    [reflexivity | discriminate |].
  apply Hclear. right. reflexivity.
Defined.

(** C1, as the code has it: on an error acknowledgement the handler requests
    the close of the packet's source channel and, when that request fails,
    returns the failure. Otherwise, with no provider channel bound it returns
    the no-channel error; with a bound channel equal to the packet's source
    channel it returns nil after that single close request; with a bound
    channel that differs it also requests the close of the bound channel on the
    consumer port and returns what that request answers. *)
Theorem OnAcknowledgementPacket_error_ack `{!ChannelKeeper CK} `{!CCVTypes}
    (ctx : Context) (packet : Packet) (err : string) (w : World CK) e1 ck1 :
  err ≠ "" ->
  channelKeeper_ChanCloseInit (channelKeeper w) (SourcePort packet) (SourceChannel packet)
  = (e1, ck1) ->
  let closeSource := CallChanCloseInit (SourcePort packet) (SourceChannel packet) in
  ∃ res w',
    OnAcknowledgementPacket ctx packet (Acknowledgement_Error err) w = Ok res w'
    ∧ match e1, providerChannel w with
      | Some e, _ =>
          res = Some (ErrChanCloseInitFailed (SourceChannel packet) e)
          ∧ calls w' = calls w ++ [closeSource]
      | None, None =>
          res = Some (Wrapf ErrNoProposerChannelId
                        "recv ErrorAcknowledgement on non-established channel")
          ∧ calls w' = calls w ++ [closeSource]
      | None, Some channelID =>
          if decide (channelID = SourceChannel packet) then
            res = None ∧ calls w' = calls w ++ [closeSource]
          else
            res = (channelKeeper_ChanCloseInit ck1 ConsumerPortID channelID).1
            ∧ calls w' = calls w ++ [closeSource; CallChanCloseInit ConsumerPortID channelID]
      end.
Proof.
  intros Hne Hclose closeSource. subst closeSource.
  unfold OnAcknowledgementPacket, OnAcknowledgementPacket_error. simpl.
  rewrite decide_True by done. run. rewrite Hclose.
  destruct e1 as [e|]; simpl.
  - eauto.
  - destruct (providerChannel w) as [channelID|] eqn:Hpc; simpl; [|eauto].
    destruct (decide (channelID = SourceChannel packet)) as [Heq|Hneq].
    + rewrite decide_False by (intros ?; done). eauto.
    + rewrite decide_True by done.
      simpl.
      destruct (channelKeeper_ChanCloseInit ck1 ConsumerPortID channelID) as [e2 ck2].
      simpl. eexists _, _. split; [reflexivity|]. split; [done|].
      rewrite <- app_assoc. reflexivity.
Qed.

Lemma OnAcknowledgementPacket_error_ack_witness :
  ∃ res w',
    OnAcknowledgementPacket ctx0 (packetOn "channel-0" [x01])
      (Acknowledgement_Error "invalid slash packet") world0 = Ok res w'
    ∧ res = Some (Wrapf ErrNoProposerChannelId
                    "recv ErrorAcknowledgement on non-established channel")
    ∧ calls w' = calls world0 ++ [CallChanCloseInit "consumer" "channel-0"].
Proof.
  apply (OnAcknowledgementPacket_error_ack ctx0 (packetOn "channel-0" [x01])
           "invalid slash packet" world0 None
           {| mockChannels := mockChannels mockKeeper0;
              mockSendPacket := [];
              mockChanCloseInit := [] |});
    [discriminate | reflexivity].
Defined.

(** C1, as stated, fails on the code: with channel-0 bound, an error
    acknowledgement for a packet sent on channel-7 returns no error, and the
    handler requests the close of the bound channel-0 after that of
    channel-7. *)
Lemma OnAcknowledgementPacket_error_ack_mismatch_returns_nil :
  ∃ w', OnAcknowledgementPacket ctx0 (packetOn "channel-7" [x01])
          (Acknowledgement_Error "invalid slash packet") worldBound = Ok None w'
        ∧ calls w' = [CallChanCloseInit "consumer" "channel-7";
                      CallChanCloseInit "consumer" "channel-0"]
        ∧ ¬ (∃ e w'', OnAcknowledgementPacket ctx0 (packetOn "channel-7" [x01])
                        (Acknowledgement_Error "invalid slash packet") worldBound
                      = Ok (Some e) w'').
Proof.
  eexists. split; [reflexivity|]. split; [reflexivity|].
  intros (e & w'' & Hrun). vm_compute in Hrun. discriminate.
Qed.

(** *** Queueing slash packets *)

(** C5: [QueueSlashPacket] for a downtime infraction of a validator whose
    address is in the outstanding-downtime set changes nothing. Otherwise, for
    downtime, it adds the address to the set, appends one slash entry to the
    queue and emits the slash-request event, after which a second downtime
    call for the same address changes nothing, so that one entry is queued.
    For an infraction other than downtime the entry is always appended and the
    set is left alone. *)
Theorem QueueSlashPacket_downtime_dedup `{!ChannelKeeper CK} `{!CCVTypes}
    (ctx : Context) (validator : Validator) (valsetUpdateID : Z)
    (infraction : Infraction) (w : World CK) :
  let entry :=
    {| Type_ := SlashPacket;
       Data := ConsumerPacketData_SlashPacketData
                 (NewSlashPacketData validator valsetUpdateID infraction);
       Idx := pendingPacketsIdx w |} in
  let request :=
    EventTypeConsumerSlashRequest (Address validator) valsetUpdateID infraction in
  let outcome := QueueSlashPacket ctx validator valsetUpdateID infraction w in
  (infraction = Infraction_INFRACTION_DOWNTIME ->
   Address validator ∈ outstandingDowntime w ->
   outcome = Ok tt w)
  ∧ (infraction = Infraction_INFRACTION_DOWNTIME ->
     Address validator ∉ outstandingDowntime w ->
     ∃ w', outcome = Ok tt w'
           ∧ outstandingDowntime w' = {[Address validator]} ∪ outstandingDowntime w
           ∧ pendingPackets w' = pendingPackets w ++ [entry]
           ∧ events w' = events w ++ [request]
           ∧ ∀ ctx' validator' valsetUpdateID',
               Address validator' = Address validator ->
               QueueSlashPacket ctx' validator' valsetUpdateID'
                 Infraction_INFRACTION_DOWNTIME w' = Ok tt w')
  ∧ (infraction ≠ Infraction_INFRACTION_DOWNTIME ->
     ∃ w', outcome = Ok tt w'
           ∧ outstandingDowntime w' = outstandingDowntime w
           ∧ pendingPackets w' = pendingPackets w ++ [entry]
           ∧ events w' = events w ++ [request]).
Proof.
  intros entry request outcome. subst entry request outcome.
  unfold QueueSlashPacket. split; [|split].
  - intros -> Hin. run. rewrite bool_decide_eq_true_2 by done. reflexivity.
  - intros -> Hnotin. run. rewrite bool_decide_eq_false_2 by done. simpl.
    eexists. split; [reflexivity|]. simpl. repeat split.
    intros ctx' validator' valsetUpdateID' Haddr. rewrite Haddr.
    rewrite bool_decide_eq_true_2 by set_solver. reflexivity.
  - intros Hne. run. rewrite (bool_decide_eq_false_2 _ Hne). simpl.
    eexists. split; [reflexivity|]. simpl. done.
Qed.

Lemma QueueSlashPacket_downtime_dedup_witness :
  QueueSlashPacket ctx0 validatorV1 5 Infraction_INFRACTION_DOWNTIME worldSlashSent
  = Ok tt worldSlashSent.
Proof.
  destruct (QueueSlashPacket_downtime_dedup ctx0 validatorV1 5
              Infraction_INFRACTION_DOWNTIME worldSlashSent) as (Hskip & _ & _).
  apply Hskip; [reflexivity|]. vm_compute. set_solver.
Defined.

(** *** Receiving validator-set changes *)

(** C7: when validation of the batch fails, [OnRecvVSCPacket] returns the
    validation error and the world is the one it was given, so the channel
    binding, the pending changes, the height mapping and the
    outstanding-downtime set are untouched. A batch with an empty validator
    identity or with the same identity twice fails validation. *)
Theorem OnRecvVSCPacket_malformed_no_mutation `{!ChannelKeeper CK} `{!CCVTypes}
    (ctx : Context) (packet : Packet) (newChanges : ValidatorSetChangePacketData)
    (w : World CK) :
  (∀ err, Validate newChanges = Some err ->
          OnRecvVSCPacket ctx packet newChanges w
          = Ok (Some (Wrapf err "error validating VSCPacket data")) w)
  ∧ ("" ∈ map VUPubKey (ValidatorUpdates newChanges)
     ∨ ¬ NoDup (map VUPubKey (ValidatorUpdates newChanges)) ->
     ∃ err, OnRecvVSCPacket ctx packet newChanges w = Ok (Some err) w).
Proof.
  assert (Hgen : ∀ err, Validate newChanges = Some err ->
            OnRecvVSCPacket ctx packet newChanges w
            = Ok (Some (Wrapf err "error validating VSCPacket data")) w).
  { intros err Hval. unfold OnRecvVSCPacket. rewrite Hval. reflexivity. }
  split; [exact Hgen|].
  intros Hbad.
  assert (∃ err, Validate newChanges = Some err) as [err Hval].
  { unfold Validate. simpl.
    destruct (decide ("" ∈ map VUPubKey (ValidatorUpdates newChanges))) as [He|He].
    - rewrite bool_decide_eq_true_2 by done. eauto.
    - rewrite bool_decide_eq_false_2 by done.
      destruct Hbad as [?|Hdup]; [done|].
      rewrite bool_decide_eq_false_2 by done. eauto. }
  eexists. apply Hgen, Hval.
Qed.

Lemma OnRecvVSCPacket_malformed_no_mutation_witness :
  ∃ err, OnRecvVSCPacket ctx0 (packetOn "channel-0" [])
           {| ValidatorUpdates := [ {| VUPubKey := "V1"; Power := 10 |};
                                    {| VUPubKey := "V1"; Power := 15 |} ];
              ValsetUpdateId := 1; SlashAcks := [] |} worldSlashSent
         = Ok (Some err) worldSlashSent.
Proof.
  destruct (OnRecvVSCPacket_malformed_no_mutation ctx0 (packetOn "channel-0" [])
              {| ValidatorUpdates := [ {| VUPubKey := "V1"; Power := 10 |};
                                       {| VUPubKey := "V1"; Power := 15 |} ];
                 ValsetUpdateId := 1; SlashAcks := [] |} worldSlashSent)
    as (_ & Hbad).
  apply Hbad. right. simpl. intros Hnd. apply NoDup_cons in Hnd as [Hnotin _].
  apply Hnotin. left.
Defined.

(** The loop over the slash acknowledgements only touches the
    outstanding-downtime set and the log. *)
Lemma slashAcks_loop_frame `{!ChannelKeeper CK} `{!CCVTypes}
    (acks : list string) (w : World CK) :
  ∃ downtime lines,
    forEach acks (fun ack =>
      match GetConsAddrFromBech32 ack with
      | None => Logger LogError "invalid consensus address in VSCPacket.SlashAcks"
      | Some consAddr => DeleteOutstandingDowntime consAddr
      end) w
    = Ok tt (with_logs lines (with_outstandingDowntime downtime w)).
Proof.
  revert w. induction acks as [|ack acks IH]; intros w; simpl.
  - exists (outstandingDowntime w), (logs w). by destruct w.
  - unfold bind at 1.
    destruct (GetConsAddrFromBech32 ack) as [consAddr|]; run.
    + destruct (IH (with_outstandingDowntime (outstandingDowntime w ∖ {[consAddr]}) w))
        as (d & l & ->). by exists d, l.
    + destruct (IH (with_logs
                      (logs w ++ [(LogError, "invalid consensus address in VSCPacket.SlashAcks")]) w))
        as (d & l & ->). by exists d, l.
Qed.

(** What a valid batch does to the world, when the packet does not arrive on
    a channel other than the bound one. *)
Lemma OnRecvVSCPacket_valid `{!ChannelKeeper CK} `{!CCVTypes}
    (ctx : Context) (packet : Packet) (newChanges : ValidatorSetChangePacketData)
    (w : World CK) :
  Validate newChanges = None ->
  providerChannel w = None ∨ providerChannel w = Some (DestinationChannel packet) ->
  ∃ downtime lines,
    OnRecvVSCPacket ctx packet newChanges w
    = Ok None
        {| params := params w;
           providerChannel := Some (DestinationChannel packet);
           pendingChanges :=
             Some {| ValidatorUpdates :=
                       AccumulateChanges
                         (match pendingChanges w with
                          | Some c => ValidatorUpdates c
                          | None => []
                          end)
                         (ValidatorUpdates newChanges);
                     ValsetUpdateId := 0;
                     SlashAcks := [] |};
           heightValsetUpdateID :=
             <[uint64 (uint64 (BlockHeight ctx) + 1) := ValsetUpdateId newChanges]>
               (heightValsetUpdateID w);
           outstandingDowntime := downtime;
           pendingPackets := pendingPackets w;
           pendingPacketsIdx := pendingPacketsIdx w;
           slashRecord := slashRecord w;
           channelKeeper := channelKeeper w;
           calls := calls w;
           events :=
             events w ++
             (if providerChannel w is Some _ then []
              else [EventTypeChannelEstablished (DestinationChannel packet)
                      (DestinationPort packet)]);
           logs := lines |}.
Proof.
  intros Hval Hch. unfold OnRecvVSCPacket. rewrite Hval.
  pose proof (slashAcks_loop_frame (SlashAcks newChanges)) as Hloop.
  unfold bind at 1. unfold GetProviderChannel at 1, gets at 1.
  destruct Hch as [Hch|Hch]; rewrite Hch.
  - run. after_slashAcks_loop. eexists _, _. reflexivity.
  - rewrite decide_False by (intros Hne; by apply Hne).
    run. after_slashAcks_loop. rewrite app_nil_r. eexists _, _.
    unfold_with. rewrite Hch. reflexivity.
Qed.

(** *** Accumulation of validator updates *)

Section Accumulate.
Implicit Types (u v : ValidatorUpdate) (acc updates : list ValidatorUpdate).
Implicit Types (k : PubKey) (keys : list PubKey).

Lemma filter_key_absent k acc :
  k ∉ map VUPubKey acc -> filter (fun u => VUPubKey u = k) acc = [].
Proof.
  induction acc as [|a acc IH]; simpl; [done|].
  rewrite not_elem_of_cons. intros [Hne Hnotin].
  rewrite filter_cons_False by (intros Heq; by apply Hne). by apply IH.
Qed.

Lemma mergeUpdate_keys u acc :
  map VUPubKey (mergeUpdate u acc)
  = if decide (VUPubKey u ∈ map VUPubKey acc) then map VUPubKey acc
    else map VUPubKey acc ++ [VUPubKey u].
Proof.
  induction acc as [|a acc IH]; simpl.
  - destruct (decide (VUPubKey u ∈ [])) as [Hin|_]; [|done].
    by apply elem_of_nil in Hin.
  - destruct (decide (VUPubKey a = VUPubKey u)) as [Heq|Hne]; simpl.
    + rewrite decide_True by (rewrite Heq; left). by rewrite Heq.
    + rewrite IH. destruct (decide (VUPubKey u ∈ map VUPubKey acc)) as [Hin|Hnotin].
      * rewrite decide_True by (by right). done.
      * rewrite decide_False; [done|].
        rewrite not_elem_of_cons. split; [congruence|done].
Qed.

Lemma mergeUpdate_NoDup u acc :
  NoDup (map VUPubKey acc) -> NoDup (map VUPubKey (mergeUpdate u acc)).
Proof.
  intros Hnd. rewrite mergeUpdate_keys.
  destruct (decide (VUPubKey u ∈ map VUPubKey acc)); [done|].
  apply NoDup_app. split; [done|]. split; [|apply NoDup_singleton].
  intros x Hx Hx'. apply list_elem_of_singleton in Hx'. by subst.
Qed.

Lemma mergeUpdate_filter_key k u acc :
  NoDup (map VUPubKey acc) ->
  filter (fun v => VUPubKey v = k) (mergeUpdate u acc)
  = if decide (VUPubKey u = k) then [u]
    else filter (fun v => VUPubKey v = k) acc.
Proof.
  induction acc as [|a acc IH]; simpl; intros Hnd.
  - rewrite filter_cons, filter_nil. by destruct (decide (VUPubKey u = k)).
  - apply NoDup_cons in Hnd as [Hnotin Hnd].
    destruct (decide (VUPubKey a = VUPubKey u)) as [Heq|Hne].
    + rewrite !filter_cons. destruct (decide (VUPubKey u = k)) as [Hk|Hk].
      * rewrite filter_key_absent; [done|]. by rewrite <- Hk, <- Heq.
      * rewrite decide_False by congruence. done.
    + rewrite !filter_cons, (IH Hnd).
      destruct (decide (VUPubKey a = k)) as [Hak|Hak];
        destruct (decide (VUPubKey u = k)) as [Huk|Huk]; try done.
      congruence.
Qed.

Lemma firstAppearance_elem_of k keys : k ∈ firstAppearance keys ↔ k ∈ keys.
Proof.
  induction keys as [|a keys IH]; simpl; [done|].
  rewrite !elem_of_cons, list_elem_of_filter, IH.
  destruct (decide (k = a)); naive_solver.
Qed.

Lemma firstAppearance_NoDup keys : NoDup (firstAppearance keys).
Proof.
  induction keys as [|a keys IH]; simpl; [apply NoDup_nil_2|].
  apply NoDup_cons. split; [|by apply NoDup_filter].
  rewrite list_elem_of_filter. naive_solver.
Qed.

Lemma firstAppearance_filter k keys :
  filter (fun k' => k' ≠ k) (firstAppearance keys)
  = firstAppearance (filter (fun k' => k' ≠ k) keys).
Proof.
  induction keys as [|a keys IH]; simpl; [done|].
  rewrite !filter_cons. destruct (decide (a ≠ k)) as [Hne|Heq]; simpl.
  - f_equal. rewrite <- IH, !list_filter_filter.
    apply list_filter_iff. naive_solver.
  - apply dec_stable in Heq. subst a.
    rewrite list_filter_filter, <- IH. apply list_filter_iff. naive_solver.
Qed.

Lemma filter_other_absent k keys :
  k ∉ keys -> filter (fun k' => k' ≠ k) keys = keys.
Proof.
  induction keys as [|a keys IH]; [done|].
  intros [Hne Hnotin]%not_elem_of_cons.
  rewrite filter_cons_True by congruence. f_equal. by apply IH.
Qed.

Lemma firstAppearance_id keys : NoDup keys -> firstAppearance keys = keys.
Proof.
  induction keys as [|a keys IH]; simpl; [done|].
  intros [Hnotin Hnd]%NoDup_cons. f_equal. rewrite (IH Hnd).
  by apply filter_other_absent.
Qed.

Lemma firstAppearance_app_seen keys k rest :
  k ∈ keys -> firstAppearance (keys ++ k :: rest) = firstAppearance (keys ++ rest).
Proof.
  induction keys as [|a keys IH]; simpl; [by intros ?%elem_of_nil|].
  intros Hin. f_equal. destruct (decide (a = k)) as [->|Hne].
  - rewrite !firstAppearance_filter, !filter_app.
    rewrite filter_cons_False by (intros Hkk; by apply Hkk). done.
  - apply elem_of_cons in Hin as [->|Hin]; [done|]. by rewrite IH.
Qed.

Lemma AccumulateChanges_keys acc updates :
  NoDup (map VUPubKey acc) ->
  map VUPubKey (AccumulateChanges acc updates)
  = firstAppearance (map VUPubKey acc ++ map VUPubKey updates)
  ∧ NoDup (map VUPubKey (AccumulateChanges acc updates)).
Proof.
  unfold AccumulateChanges. revert acc.
  induction updates as [|u updates IH]; intros acc Hnd; simpl.
  - rewrite app_nil_r, firstAppearance_id by done. done.
  - destruct (IH (mergeUpdate u acc) (mergeUpdate_NoDup u acc Hnd)) as [-> Hnd'].
    split; [|done]. rewrite mergeUpdate_keys.
    destruct (decide (VUPubKey u ∈ map VUPubKey acc)) as [Hin|Hnotin].
    + by rewrite firstAppearance_app_seen.
    + by rewrite <- app_assoc.
Qed.

Lemma latestUpdate_NoDup u acc :
  NoDup (map VUPubKey acc) -> u ∈ acc -> latestUpdate (VUPubKey u) acc = Some u.
Proof.
  unfold latestUpdate. induction acc as [|a acc IH]; simpl.
  - by intros _ ?%elem_of_nil.
  - intros [Hnotin Hnd]%NoDup_cons [->|Hin]%elem_of_cons.
    + rewrite filter_cons_True by done. by rewrite filter_key_absent.
    + rewrite filter_cons_False; [by apply IH|].
      intros Heq. apply Hnotin. rewrite Heq.
      apply list_elem_of_In, in_map, list_elem_of_In, Hin.
Qed.

Lemma latestUpdate_mergeUpdate k u acc updates :
  NoDup (map VUPubKey acc) ->
  latestUpdate k (mergeUpdate u acc ++ updates) = latestUpdate k (acc ++ u :: updates).
Proof.
  intros Hnd. unfold latestUpdate.
  rewrite !filter_app, mergeUpdate_filter_key, filter_cons by done.
  destruct (decide (VUPubKey u = k)); [|done].
  by rewrite last_app_cons.
Qed.

Lemma AccumulateChanges_latest acc updates u :
  NoDup (map VUPubKey acc) ->
  u ∈ AccumulateChanges acc updates ->
  latestUpdate (VUPubKey u) (acc ++ updates) = Some u.
Proof.
  unfold AccumulateChanges. revert acc.
  induction updates as [|x updates IH]; intros acc Hnd; simpl.
  - rewrite app_nil_r. by apply latestUpdate_NoDup.
  - intros Hin. rewrite <- latestUpdate_mergeUpdate by done.
    apply IH; [by apply mergeUpdate_NoDup|done].
Qed.

End Accumulate.

(** One delivery: a returned error leaves the world as it was; a delivery
    that returns nil binds the packet's channel, emits the established event
    if nothing was bound before, and stores the accumulation of the batch. *)
Lemma OnRecvVSCPacket_step `{!ChannelKeeper CK} `{!CCVTypes}
    (ctx : Context) (packet : Packet) (newChanges : ValidatorSetChangePacketData)
    (w w' : World CK) (err : option Error) :
  OnRecvVSCPacket ctx packet newChanges w = Ok err w' ->
  match err with
  | Some _ => w' = w
  | None =>
      providerChannel w' = Some (DestinationChannel packet)
      ∧ (providerChannel w = None
         ∨ providerChannel w = Some (DestinationChannel packet))
      ∧ events w' =
          events w ++
          (if providerChannel w is Some _ then []
           else [EventTypeChannelEstablished (DestinationChannel packet)
                   (DestinationPort packet)])
      ∧ currentValUpdates w' =
          AccumulateChanges (currentValUpdates w) (ValidatorUpdates newChanges)
      ∧ is_Some (pendingChanges w')
  end.
Proof.
  intros Hrun.
  destruct (Validate newChanges) as [e|] eqn:Hval.
  - unfold OnRecvVSCPacket in Hrun. rewrite Hval in Hrun.
    unfold ret in Hrun. by injection Hrun as <- <-.
  - assert (providerChannel w = None
            ∨ providerChannel w = Some (DestinationChannel packet)) as Hch.
    { destruct (providerChannel w) as [c|] eqn:Hpc; [|by left].
      destruct (decide (c = DestinationChannel packet)) as [->|Hne]; [by right|].
      unfold OnRecvVSCPacket in Hrun. rewrite Hval in Hrun.
      unfold bind at 1 in Hrun. unfold GetProviderChannel at 1, gets at 1 in Hrun.
      rewrite Hpc in Hrun. rewrite decide_True in Hrun by done.
      unfold bind, panic in Hrun. discriminate. }
    destruct (OnRecvVSCPacket_valid ctx packet newChanges w Hval Hch)
      as (d & l & Hok).
    rewrite Hok in Hrun. injection Hrun as <- <-. simpl.
    unfold currentValUpdates. simpl. eauto 10.
Qed.

(** A run of deliveries that all return nil accumulates the updates of all
    batches in the order of arrival. *)
Lemma OnRecvVSCPackets_accumulate `{!ChannelKeeper CK} `{!CCVTypes}
    (inputs : list (Context * Packet * ValidatorSetChangePacketData))
    (w w' : World CK) (errs : list (option Error)) :
  OnRecvVSCPackets inputs w = Ok errs w' ->
  Forall (fun err => err = None) errs ->
  currentValUpdates w' = AccumulateChanges (currentValUpdates w) (updatesOf inputs)
  ∧ (inputs ≠ [] -> is_Some (pendingChanges w')).
Proof.
  revert w errs. induction inputs as [|[[ctx packet] newChanges] inputs IH];
    intros w errs Hrun Hall; simpl in Hrun.
  - injection Hrun as <- <-. done.
  - destruct (OnRecvVSCPacket ctx packet newChanges w) as [err w1|] eqn:Hstep; [|done].
    destruct (OnRecvVSCPackets inputs w1) as [errs1 w2|] eqn:Hrest; [|done].
    injection Hrun as <- <-. apply Forall_cons in Hall as [-> Hall].
    apply OnRecvVSCPacket_step in Hstep as (_ & _ & _ & Hacc & Hsome).
    destruct (IH _ _ Hrest Hall) as [Hacc' Hsome'].
    split.
    + rewrite Hacc', Hacc. unfold updatesOf, AccumulateChanges. simpl.
      by rewrite fold_left_app.
    + intros _. destruct inputs as [|input inputs]; [|by apply Hsome'].
      simpl in Hrest. by injection Hrest as <- <-.
Qed.

(** C3: after a run of deliveries that all return nil, started with no
    pending changes, the pending validator updates hold one entry per
    identity seen in the batches, in the order of first appearance, and each
    entry is the most recent update of its identity. *)
Theorem OnRecvVSCPackets_last_write_wins `{!ChannelKeeper CK} `{!CCVTypes}
    (inputs : list (Context * Packet * ValidatorSetChangePacketData))
    (w w' : World CK) (errs : list (option Error)) :
  pendingChanges w = None ->
  inputs ≠ [] ->
  OnRecvVSCPackets inputs w = Ok errs w' ->
  Forall (fun err => err = None) errs ->
  ∃ pending,
    pendingChanges w' = Some pending
    ∧ NoDup (map VUPubKey (ValidatorUpdates pending))
    ∧ (∀ k, k ∈ map VUPubKey (ValidatorUpdates pending)
            ↔ k ∈ map VUPubKey (updatesOf inputs))
    ∧ map VUPubKey (ValidatorUpdates pending)
      = firstAppearance (map VUPubKey (updatesOf inputs))
    ∧ (∀ u, u ∈ ValidatorUpdates pending ->
            latestUpdate (VUPubKey u) (updatesOf inputs) = Some u).
Proof.
  intros Hnone Hne Hrun Hall.
  destruct (OnRecvVSCPackets_accumulate inputs w w' errs Hrun Hall) as [Hacc Hsome].
  destruct (Hsome Hne) as [pending Hpending]. exists pending.
  unfold currentValUpdates in Hacc. rewrite Hpending, Hnone in Hacc.
  assert (Hnd : NoDup (map VUPubKey ([] : list ValidatorUpdate))) by apply NoDup_nil_2.
  destruct (AccumulateChanges_keys [] (updatesOf inputs) Hnd) as [Hkeys Hnd'].
  rewrite Hacc. split; [done|]. split; [done|]. split; [|split; [done|]].
  - intros k. rewrite Hkeys. apply firstAppearance_elem_of.
  - intros u Hin. by apply (AccumulateChanges_latest [] (updatesOf inputs) u Hnd).
Qed.

Lemma OnRecvVSCPackets_last_write_wins_witness :
  ∃ errs w' pending,
    OnRecvVSCPackets scenarioA world0 = Ok errs w'
    ∧ pendingChanges w' = Some pending
    ∧ ValidatorUpdates pending
      = [ {| VUPubKey := "V1"; Power := 15 |}; {| VUPubKey := "V2"; Power := 20 |} ]
    ∧ map VUPubKey (ValidatorUpdates pending)
      = firstAppearance (map VUPubKey (updatesOf scenarioA)).
Proof.
  destruct (OnRecvVSCPackets scenarioA world0) as [errs w'|] eqn:Hrun;
    [|vm_compute in Hrun; discriminate].
  assert (Hall : Forall (fun err => err = None) errs).
  { vm_compute in Hrun. injection Hrun as <- _. by repeat constructor. }
  destruct (OnRecvVSCPackets_last_write_wins scenarioA world0 w' errs)
    as (pending & Hpending & _ & _ & Hkeys & _); [reflexivity|discriminate|done..|].
  exists errs, w', pending. repeat split; [done| |done].
  vm_compute in Hrun. injection Hrun as _ <-. simpl in Hpending.
  by injection Hpending as <-.
Defined.

(** *** Channel binding *)

(** Over a run of deliveries the number of channel-established events tracks
    the binding: none while unbound, one once bound. *)
Lemma OnRecvVSCPackets_established `{!ChannelKeeper CK} `{!CCVTypes}
    (inputs : list (Context * Packet * ValidatorSetChangePacketData))
    (w w' : World CK) (errs : list (option Error)) :
  OnRecvVSCPackets inputs w = Ok errs w' ->
  establishedCount w = (if providerChannel w is Some _ then 1 else 0)%nat ->
  establishedCount w' = (if providerChannel w' is Some _ then 1 else 0)%nat
  ∧ (is_Some (providerChannel w')
     ↔ is_Some (providerChannel w) ∨ Exists (fun err => err = None) errs).
Proof.
  revert w errs. induction inputs as [|[[ctx packet] newChanges] inputs IH];
    intros w errs Hrun Hinv; simpl in Hrun.
  - injection Hrun as <- <-. split; [done|]. rewrite Exists_nil. tauto.
  - destruct (OnRecvVSCPacket ctx packet newChanges w) as [err w1|] eqn:Hstep; [|done].
    destruct (OnRecvVSCPackets inputs w1) as [errs1 w2|] eqn:Hrest; [|done].
    injection Hrun as <- <-. apply OnRecvVSCPacket_step in Hstep.
    rewrite Exists_cons. destruct err as [e|].
    + subst w1. destruct (IH _ _ Hrest Hinv) as [Hinv' Hiff].
      split; [done|]. rewrite Hiff. intuition congruence.
    + destruct Hstep as (Hbound & Hch & Hev & _ & _).
      assert (Hinv1 : establishedCount w1
                      = (if providerChannel w1 is Some _ then 1 else 0)%nat).
      { unfold establishedCount in *. rewrite Hbound, Hev, List.filter_app, length_app.
        rewrite Hinv. destruct Hch as [-> | ->]; reflexivity. }
      destruct (IH _ _ Hrest Hinv1) as [Hinv' Hiff].
      split; [done|]. rewrite Hiff, Hbound. intuition eauto.
Qed.

(** C6: a valid batch delivered while no channel is bound binds the packet's
    channel and emits one channel-established event; delivered on the bound
    channel it proceeds and emits no such event; delivered on another channel
    it panics. Over any run of deliveries from an unbound consumer the event
    is emitted once when some delivery succeeded and not at all otherwise. *)
Theorem OnRecvVSCPacket_binds_once `{!ChannelKeeper CK} `{!CCVTypes}
    (ctx : Context) (packet : Packet) (newChanges : ValidatorSetChangePacketData)
    (w : World CK) :
  Validate newChanges = None ->
  match providerChannel w with
  | None =>
      ∃ w', OnRecvVSCPacket ctx packet newChanges w = Ok None w'
            ∧ providerChannel w' = Some (DestinationChannel packet)
            ∧ events w' = events w ++
                [EventTypeChannelEstablished (DestinationChannel packet)
                   (DestinationPort packet)]
  | Some channelID =>
      if decide (channelID = DestinationChannel packet) then
        ∃ w', OnRecvVSCPacket ctx packet newChanges w = Ok None w'
              ∧ providerChannel w' = Some channelID
              ∧ events w' = events w
      else
        OnRecvVSCPacket ctx packet newChanges w
        = Panicked (PanicUnknownChannel (DestinationChannel packet) channelID)
  end
  ∧ ∀ inputs errs w',
      providerChannel w = None ->
      establishedCount w = 0%nat ->
      OnRecvVSCPackets inputs w = Ok errs w' ->
      establishedCount w'
      = (if bool_decide (Exists (fun err => err = None) errs) then 1 else 0)%nat.
Proof.
  intros Hval. split.
  - destruct (providerChannel w) as [channelID|] eqn:Hpc.
    + destruct (decide (channelID = DestinationChannel packet)) as [->|Hne].
      * destruct (OnRecvVSCPacket_valid ctx packet newChanges w Hval) as (d & l & Hok);
          [by right|].
        eexists. split; [exact Hok|]. simpl. rewrite Hpc, app_nil_r. done.
      * unfold OnRecvVSCPacket. rewrite Hval.
        unfold bind at 1. unfold GetProviderChannel at 1, gets at 1. rewrite Hpc.
        rewrite decide_True by done. reflexivity.
    + destruct (OnRecvVSCPacket_valid ctx packet newChanges w Hval) as (d & l & Hok);
        [by left|].
      eexists. split; [exact Hok|]. simpl. rewrite Hpc. done.
  - intros inputs errs w' Hpc Hcount Hrun.
    destruct (OnRecvVSCPackets_established inputs w w' errs Hrun) as [Hinv Hiff].
    { by rewrite Hpc. }
    rewrite Hinv. rewrite Hpc in Hiff.
    destruct (decide (Exists (fun err => err = None) errs)) as [Hex|Hnex].
    + rewrite bool_decide_eq_true_2 by done.
      destruct (providerChannel w'); [done|].
      destruct (proj2 Hiff (or_intror Hex)) as [? ?]. done.
    + rewrite bool_decide_eq_false_2 by done.
      destruct (providerChannel w') as [c|] eqn:Hpc'; [|done].
      destruct (proj1 Hiff (mk_is_Some _ _ eq_refl)) as [[? ?]|?]; done.
Qed.

Lemma OnRecvVSCPacket_binds_once_witness :
  OnRecvVSCPacket ctx0 (packetOn "channel-5" [])
    {| ValidatorUpdates := [ {| VUPubKey := "V1"; Power := 10 |} ];
       ValsetUpdateId := 1; SlashAcks := [] |} worldBound
  = Panicked (PanicUnknownChannel "channel-5" "channel-0").
Proof.
  destruct (OnRecvVSCPacket_binds_once ctx0 (packetOn "channel-5" [])
              {| ValidatorUpdates := [ {| VUPubKey := "V1"; Power := 10 |} ];
                 ValsetUpdateId := 1; SlashAcks := [] |} worldBound) as [Hstep _];
    [reflexivity|].
  exact Hstep.
Defined.

(** C6, as stated, fails on the code for a later delivery that does not pass
    validation: with channel-0 bound, a batch that names the same validator
    twice, delivered on channel-5, is returned as a validation error; the
    handler does not panic and the world is as it was. *)
Lemma OnRecvVSCPacket_wrong_channel_malformed_returns :
  providerChannel worldBound = Some "channel-0"
  ∧ DestinationChannel (packetOn "channel-5" []) ≠ "channel-0"
  ∧ OnRecvVSCPacket ctx0 (packetOn "channel-5" [])
      {| ValidatorUpdates := [ {| VUPubKey := "V1"; Power := 10 |};
                               {| VUPubKey := "V1"; Power := 15 |} ];
         ValsetUpdateId := 1; SlashAcks := [] |} worldBound
    = Ok (Some (Wrapf (ErrInvalidPacketData "duplicate validator identity")
                  "error validating VSCPacket data")) worldBound
  ∧ ¬ (∃ v, OnRecvVSCPacket ctx0 (packetOn "channel-5" [])
              {| ValidatorUpdates := [ {| VUPubKey := "V1"; Power := 10 |};
                                       {| VUPubKey := "V1"; Power := 15 |} ];
                 ValsetUpdateId := 1; SlashAcks := [] |} worldBound
            = Panicked v).
Proof.
  split; [reflexivity|]. split; [discriminate|]. split; [reflexivity|].
  intros (v & Hrun). vm_compute in Hrun. discriminate.
Qed.

(** *** Sending the queue *)

Lemma filter_not_in_nil (l : list ConsumerPacketDataWithIdx) :
  filter (fun p => Idx p ∉ []) l = l.
Proof.
  induction l as [|a l IH]; [done|].
  rewrite filter_cons_True by apply not_elem_of_nil. by rewrite IH.
Qed.

(** One tick with a slash packet at the head of the queue: the queue is left
    as it is and at most the head is sent; when sending is not permitted the
    world is left as it is; when the head is sent with success the slash
    record awaits the reply. *)
Lemma SendPackets_slash_head `{!ChannelKeeper CK} `{!CCVTypes}
    (ctx : Context) (w : World CK) (p : ConsumerPacketDataWithIdx)
    (rest : list ConsumerPacketDataWithIdx) :
  pendingPackets w = p :: rest ->
  Type_ p = SlashPacket ->
  ∃ w', SendPackets ctx w = Ok tt w'
        ∧ pendingPackets w' = p :: rest
        ∧ providerChannel w' = providerChannel w
        ∧ params w' = params w
        ∧ (PacketSendingPermitted ctx w = Ok false w -> w' = w)
        ∧ (calls w' = calls w
           ∨ ∃ channelID, providerChannel w = Some channelID
                          ∧ calls w' = calls w ++ [sendOf channelID w p])
        ∧ (∀ channelID ck,
             providerChannel w = Some channelID ->
             PacketSendingPermitted ctx w = Ok true w ->
             channelKeeper_SendPacket (channelKeeper w) ConsumerPortID channelID
               (GetBytes p) (CcvTimeoutPeriod (params w)) = (None, ck) ->
             state (slashRecord w') = WaitingForReply
             ∧ calls w' = calls w ++ [sendOf channelID w p]).
Proof.
  intros Hq Hty. unfold SendPackets.
  unfold bind at 1. unfold GetProviderChannel at 1, gets at 1.
  destruct (providerChannel w) as [channelID|] eqn:Hpc.
  - unfold bind at 1. unfold GetAllPendingPacketsWithIdx at 1, gets at 1.
    rewrite Hq. simpl. unfold bind at 1. unfold bind at 1.
    unfold PacketSendingPermitted, gets.
    set (permitted := match state (slashRecord w) with
                      | WaitingForReply => false
                      | WaitingForBackoffAfterBounce =>
                          bool_decide (backoffUntil (slashRecord w) ≤ BlockTime ctx)
                      | _ => true
                      end).
    destruct permitted eqn:Hperm; simpl.
    + run.
      destruct (channelKeeper_SendPacket (channelKeeper w) ConsumerPortID channelID
                  (GetBytes p) (CcvTimeoutPeriod (params w))) as [[err|] ck] eqn:Hsend;
        simpl.
      * destruct (errors_Is err ErrClientNotActive); simpl;
          rewrite Hq, filter_not_in_nil; (eexists; split; [reflexivity|]);
          simpl; split_and!; try done; try (right; by eauto);
          intros ch ck' [= <-] _ Hsend'; congruence.
      * rewrite decide_True by done. simpl. rewrite Hq, filter_not_in_nil.
        eexists. split; [reflexivity|]. simpl. split_and!; try done.
        -- right. by eauto.
        -- by intros ch ck' [= <-] _ _.
    + run. rewrite Hq, filter_not_in_nil. exists w.
      split; [by destruct w; simpl in *; subst|].
      split_and!; try done; by left.
  - exists w. simpl. split_and!; try done; by left.
Qed.

(** Any number of ticks with a slash packet at the head of the queue: the
    queue is left as it is and every packet sent is the head; while the slash
    record awaits the reply, or backs off after a bounce at block times before
    the end of the backoff, the ticks change nothing; when the first tick sends
    the head with success, that send is the only one of all the ticks. *)
Lemma SendPacketsTicks_slash_head `{!ChannelKeeper CK} `{!CCVTypes}
    (ctxs : list Context) (w : World CK) (p : ConsumerPacketDataWithIdx)
    (rest : list ConsumerPacketDataWithIdx) :
  pendingPackets w = p :: rest ->
  Type_ p = SlashPacket ->
  ∃ w', SendPacketsTicks ctxs w = Ok tt w'
        ∧ pendingPackets w' = p :: rest
        ∧ (∃ sent, calls w' = calls w ++ sent
                   ∧ Forall (fun call =>
                       ∃ channelID, providerChannel w = Some channelID
                                    ∧ call = sendOf channelID w p) sent)
        ∧ (state (slashRecord w) = WaitingForReply -> w' = w)
        ∧ (state (slashRecord w) = WaitingForBackoffAfterBounce ->
           Forall (fun ctx => BlockTime ctx < backoffUntil (slashRecord w)) ctxs ->
           w' = w)
        ∧ (∀ ctx ctxs' channelID ck,
             ctxs = ctx :: ctxs' ->
             providerChannel w = Some channelID ->
             PacketSendingPermitted ctx w = Ok true w ->
             channelKeeper_SendPacket (channelKeeper w) ConsumerPortID channelID
               (GetBytes p) (CcvTimeoutPeriod (params w)) = (None, ck) ->
             state (slashRecord w') = WaitingForReply
             ∧ calls w' = calls w ++ [sendOf channelID w p]).
Proof.
  revert w. induction ctxs as [|ctx ctxs IH]; intros w Hq Hty; simpl.
  - exists w. split_and!; try done.
    exists []. by rewrite app_nil_r.
  - destruct (SendPackets_slash_head ctx w p rest Hq Hty)
      as (w1 & -> & Hq1 & Hpc1 & Hpar1 & Hblocked & Hcalls1 & Hsent1).
    destruct (IH w1 Hq1 Hty) as (w' & -> & Hq' & (sent & Hcalls' & Hsent') & Hwait & Hback & _).
    exists w'. split_and!; try done.
    + assert (Hsame : ∀ channelID, sendOf channelID w1 p = sendOf channelID w p)
        by (intros; unfold sendOf; by rewrite Hpar1).
      rewrite Hpc1 in Hsent'. setoid_rewrite Hsame in Hsent'.
      destruct Hcalls1 as [Heq|(channelID & Hpc & Heq)]; rewrite Hcalls', Heq.
      * by exists sent.
      * exists (sendOf channelID w p :: sent).
        rewrite <- app_assoc. split; [done|]. apply Forall_cons. eauto.
    + intros Hst. assert (w1 = w) as Hw1.
      { apply Hblocked. unfold PacketSendingPermitted, gets. by rewrite Hst. }
      rewrite Hw1 in Hwait. by rewrite (Hwait Hst).
    + intros Hst [Hnow Hlater]%Forall_cons. assert (w1 = w) as Hw1.
      { apply Hblocked. unfold PacketSendingPermitted, gets. rewrite Hst.
        rewrite bool_decide_eq_false_2 by lia. done. }
      rewrite Hw1 in Hback. by rewrite (Hback Hst Hlater).
    + intros ctx0 ctxs' channelID ck [= <- <-] Hpc Hperm Hsend.
      destruct (Hsent1 channelID ck Hpc Hperm Hsend) as [Hst1 Hcall1].
      rewrite (Hwait Hst1). done.
Qed.

(** The three store operations that write the queue keep its indexes
    distinct and below the next index. *)
Lemma queueIndexed_preserved `{!ChannelKeeper CK} `{!CCVTypes} (w w' : World CK)
    (packetType : ConsumerPacketDataType) (data : ConsumerPacketData_Data)
    (idxs : list N) :
  queueIndexed w ->
  AppendPendingPacket packetType data w = Ok tt w'
  ∨ DeletePendingDataPackets idxs w = Ok tt w'
  ∨ DeleteHeadOfPendingPackets w = Ok tt w' ->
  queueIndexed w'.
Proof.
  intros [Hnd Hlt] [Hop|[Hop|Hop]]; run; injection Hop as <-;
    unfold queueIndexed; simpl.
  - split.
    + rewrite map_app. apply NoDup_app. split; [done|].
      split; [|apply NoDup_singleton].
      intros i Hi ->%list_elem_of_singleton.
      apply list_elem_of_In, in_map_iff in Hi as (q & Hq & Hin).
      apply list_elem_of_In in Hin.
      rewrite Forall_forall in Hlt. specialize (Hlt q Hin). simpl in Hlt, Hq. lia.
    + apply Forall_app. split.
      * eapply Forall_impl; [exact Hlt|]. simpl. intros; lia.
      * apply Forall_singleton. simpl. lia.
  - split.
    + induction (pendingPackets w) as [|a l IH]; [done|].
      apply NoDup_cons in Hnd as [Hnotin Hnd]. apply Forall_cons in Hlt as [_ Hlt].
      rewrite filter_cons. destruct (decide (Idx a ∉ idxs)); [|by apply IH].
      simpl. apply NoDup_cons. split; [|by apply IH].
      intros Hin. apply Hnotin.
      apply list_elem_of_In, in_map_iff in Hin as (q & Hq & Hin).
      apply list_elem_of_In, list_elem_of_filter in Hin as [_ Hin].
      rewrite <- Hq. by apply list_elem_of_In, in_map, list_elem_of_In.
    + rewrite Forall_forall in *. intros q [_ Hq]%list_elem_of_filter.
      by apply Hlt.
  - destruct (pendingPackets w) as [|a l]; [done|]. simpl in *.
    apply NoDup_cons in Hnd as [_ Hnd]. apply Forall_cons in Hlt as [_ Hlt]. done.
Qed.

(** The loop passes over a run of entries that are all sent, collecting their
    indexes, and goes on with the entries behind them. *)
Lemma SendPackets_loop_SentAll `{!ChannelKeeper CK} `{!CCVTypes}
    (ctx : Context) (channelID : string) (pre later : list ConsumerPacketDataWithIdx)
    (idxs : list N) (w w1 : World CK) :
  SentAll ctx channelID pre w w1 ->
  SendPackets_loop ctx channelID (pre ++ later) idxs w
  = SendPackets_loop ctx channelID later (idxs ++ map Idx pre) w1.
Proof.
  intros Hsent. revert idxs.
  induction Hsent as [w|q pre w ck w1 Hperm Hsend Hty Hsent IH]; intros idxs; simpl.
  - by rewrite app_nil_r.
  - unfold bind at 1. rewrite Hperm. simpl.
    unfold bind at 1. unfold GetCCVTimeoutPeriod at 1, gets at 1.
    unfold bind at 1. unfold SendIBCPacket at 1. rewrite Hsend.
    rewrite decide_False by done. rewrite IH, <- app_assoc. done.
Qed.

(** Passing over a run of entries leaves the store as it is and records one
    send per entry. *)
Lemma SentAll_frame `{!ChannelKeeper CK} `{!CCVTypes}
    (ctx : Context) (channelID : string) (pre : list ConsumerPacketDataWithIdx)
    (w w1 : World CK) :
  SentAll ctx channelID pre w w1 ->
  w1 = with_calls (calls w ++ map (sendOf channelID w) pre)
         (with_channelKeeper (channelKeeper w1) w)
  ∧ Forall (fun q => Type_ q ≠ SlashPacket) pre.
Proof.
  induction 1 as [w|q pre w ck w1 Hperm Hsend Hty Hsent [IH Hall]]; simpl.
  - rewrite app_nil_r. split; [by destruct w|done].
  - split; [|by constructor]. rewrite IH at 1. unfold_with.
    rewrite <- app_assoc. done.
Qed.

Lemma filter_sent_prefix (pre later : list ConsumerPacketDataWithIdx) :
  NoDup (map Idx (pre ++ later)) ->
  filter (fun q => Idx q ∉ map Idx pre) (pre ++ later) = later.
Proof.
  intros Hnd. rewrite filter_app.
  assert (filter (fun q => Idx q ∉ map Idx pre) pre = []) as ->.
  { assert (∀ l : list ConsumerPacketDataWithIdx,
              (∀ q, q ∈ l -> Idx q ∈ map Idx pre) ->
                 filter (fun q => Idx q ∉ map Idx pre) l = []) as Hall.
    { induction l as [|a l IH]; [done|]. intros Hin.
      rewrite filter_cons_False by (intros Hn; apply Hn, Hin; left).
      apply IH. intros q Hq. apply Hin. by right. }
    apply Hall. intros q Hq. by apply list_elem_of_In, in_map, list_elem_of_In. }
  simpl. rewrite map_app in Hnd. apply NoDup_app in Hnd as (_ & Hdisj & _).
  assert (∀ l : list ConsumerPacketDataWithIdx,
            (∀ q, q ∈ l -> Idx q ∉ map Idx pre) ->
               filter (fun q => Idx q ∉ map Idx pre) l = l) as Hall.
  { induction l as [|a l IH]; [done|]. intros Hin.
    rewrite filter_cons_True by (apply Hin; left).
    f_equal. apply IH. intros q Hq. apply Hin. by right. }
  apply Hall. intros q Hq Hpre. apply (Hdisj _ Hpre).
  by apply list_elem_of_In, in_map, list_elem_of_In.
Qed.

(** C8: when the entries before an entry of the queue are all sent and the
    send of that entry fails, whether the client is no longer active or for
    another reason, [SendPackets] returns without error, nothing is sent after
    the failed send, and the queue keeps the failed entry and all entries
    behind it, the entries sent before it being the only ones removed. The
    slash record is untouched and the failure is only logged. *)
Theorem SendPackets_failure_keeps_rest `{!ChannelKeeper CK} `{!CCVTypes}
    (ctx : Context) (channelID : string) (w w1 : World CK)
    (pre post : list ConsumerPacketDataWithIdx) (p : ConsumerPacketDataWithIdx)
    (err : Error) (ck : CK) :
  providerChannel w = Some channelID ->
  pendingPackets w = pre ++ p :: post ->
  NoDup (map Idx (pendingPackets w)) ->
  SentAll ctx channelID pre w w1 ->
  PacketSendingPermitted ctx w1 = Ok true w1 ->
  channelKeeper_SendPacket (channelKeeper w1) ConsumerPortID channelID
    (GetBytes p) (CcvTimeoutPeriod (params w1)) = (Some err, ck) ->
  ∃ w', SendPackets ctx w = Ok tt w'
        ∧ pendingPackets w' = p :: post
        ∧ Forall (fun q => Type_ q ≠ SlashPacket) pre
        ∧ calls w' = calls w ++ map (sendOf channelID w) pre ++ [sendOf channelID w p]
        ∧ slashRecord w' = slashRecord w
        ∧ logs w' = logs w ++
            [if errors_Is err ErrClientNotActive
             then (LogInfo,
                   "IBC client is expired, cannot send IBC packet; leaving packet data stored:")
             else (LogError, "cannot send IBC packet; leaving packet data stored:")].
Proof.
  intros Hpc Hq Hnd Hsent Hperm Hsend.
  destruct (SentAll_frame ctx channelID pre w w1 Hsent) as [Hw1 Hall].
  unfold SendPackets. unfold bind at 1. unfold GetProviderChannel at 1, gets at 1.
  rewrite Hpc. unfold bind at 1. unfold GetAllPendingPacketsWithIdx at 1, gets at 1.
  rewrite Hq. unfold bind at 1.
  rewrite (SendPackets_loop_SentAll ctx channelID pre (p :: post) [] w w1 Hsent).
  simpl. unfold bind at 1. rewrite Hperm. simpl.
  unfold bind at 1. unfold GetCCVTimeoutPeriod at 1, gets at 1.
  unfold bind at 1. unfold SendIBCPacket at 1. rewrite Hsend.
  assert (Hkeep : filter (fun q => Idx q ∉ map Idx pre) (pendingPackets w1) = p :: post).
  { rewrite Hw1. simpl. rewrite Hq. apply filter_sent_prefix. by rewrite <- Hq. }
  assert (Hsame : sendOf channelID w1 p = sendOf channelID w p).
  { unfold sendOf. rewrite Hw1. done. }
  assert (Hcalls : calls w1 = calls w ++ map (sendOf channelID w) pre).
  { rewrite Hw1. done. }
  assert (Hrec : slashRecord w1 = slashRecord w) by (rewrite Hw1; done).
  assert (Hlogs : logs w1 = logs w) by (rewrite Hw1; done).
  destruct (errors_Is err ErrClientNotActive); run;
    rewrite Hkeep; (eexists; split; [reflexivity|]); simpl;
    rewrite Hcalls, Hlogs, Hrec, <- app_assoc; split_and!; try done;
    fold (sendOf channelID w1 p); by rewrite Hsame.
Qed.

Lemma SendPackets_failure_keeps_rest_witness :
  ∃ w', SendPackets ctx0 worldClientExpired = Ok tt w'
        ∧ pendingPackets w' = [maturedU1; slashV2]
        ∧ calls w' = [CallSendPacket "channel-0" "consumer" [x02] 100;
                      CallSendPacket "channel-0" "consumer" [x02] 100].
Proof.
  destruct (SendPackets_failure_keeps_rest ctx0 "channel-0" worldClientExpired
              (with_calls [CallSendPacket "channel-0" "consumer" [x02] 100]
                 (with_channelKeeper
                    {| mockChannels := mockChannels mockKeeper0;
                       mockSendPacket := [Some ErrClientNotActive];
                       mockChanCloseInit := [] |} worldClientExpired))
              [maturedU0] [slashV2] maturedU1 ErrClientNotActive
              {| mockChannels := mockChannels mockKeeper0;
                 mockSendPacket := [];
                 mockChanCloseInit := [] |})
    as (w' & Hrun & Hq & _ & Hcalls & _); try reflexivity.
  - vm_compute. repeat constructor; set_solver.
  - eapply SentAll_cons; [reflexivity|reflexivity|discriminate|]. apply SentAll_nil.
  - exists w'. done.
Defined.

(** A slash packet reached by the loop and sent with success: the loop stops
    there, the entries sent before it are removed, the slash packet is the
    head of the queue that remains, and the slash record awaits the reply. *)
Lemma SendPackets_slash_sent `{!ChannelKeeper CK} `{!CCVTypes}
    (ctx : Context) (channelID : string) (w w1 : World CK)
    (pre post : list ConsumerPacketDataWithIdx) (p : ConsumerPacketDataWithIdx)
    (ck : CK) :
  Type_ p = SlashPacket ->
  providerChannel w = Some channelID ->
  pendingPackets w = pre ++ p :: post ->
  NoDup (map Idx (pendingPackets w)) ->
  SentAll ctx channelID pre w w1 ->
  PacketSendingPermitted ctx w1 = Ok true w1 ->
  channelKeeper_SendPacket (channelKeeper w1) ConsumerPortID channelID
    (GetBytes p) (CcvTimeoutPeriod (params w1)) = (None, ck) ->
  ∃ w', SendPackets ctx w = Ok tt w'
        ∧ pendingPackets w' = p :: post
        ∧ state (slashRecord w') = WaitingForReply
        ∧ calls w' = calls w ++ map (sendOf channelID w) pre ++ [sendOf channelID w p].
Proof.
  intros Hty Hpc Hq Hnd Hsent Hperm Hsend.
  destruct (SentAll_frame ctx channelID pre w w1 Hsent) as [Hw1 Hall].
  unfold SendPackets. unfold bind at 1. unfold GetProviderChannel at 1, gets at 1.
  rewrite Hpc. unfold bind at 1. unfold GetAllPendingPacketsWithIdx at 1, gets at 1.
  rewrite Hq. unfold bind at 1.
  rewrite (SendPackets_loop_SentAll ctx channelID pre (p :: post) [] w w1 Hsent).
  simpl. unfold bind at 1. rewrite Hperm. simpl.
  unfold bind at 1. unfold GetCCVTimeoutPeriod at 1, gets at 1.
  unfold bind at 1. unfold SendIBCPacket at 1. rewrite Hsend.
  rewrite decide_True by done.
  assert (Hkeep : filter (fun q => Idx q ∉ map Idx pre) (pendingPackets w1) = p :: post).
  { rewrite Hw1. simpl. rewrite Hq. apply filter_sent_prefix. by rewrite <- Hq. }
  assert (Hsame : sendOf channelID w1 p = sendOf channelID w p).
  { unfold sendOf. rewrite Hw1. done. }
  assert (Hcalls : calls w1 = calls w ++ map (sendOf channelID w) pre).
  { rewrite Hw1. done. }
  run. rewrite Hkeep. eexists; split; [reflexivity|]. simpl.
  rewrite Hcalls, <- app_assoc. split_and!; try done.
  fold (sendOf channelID w1 p). by rewrite Hsame.
Qed.

(** C2: with a slash packet at the head of the queue, over any number of
    ticks the queue is left as it is and every packet sent is the head; while
    the slash record awaits the reply, or backs off after a bounce at block
    times before the end of the backoff, the ticks change nothing. When the
    loop reaches a slash packet and sends it with success, the loop stops, the
    slash packet is the head of the queue that remains, the slash record
    awaits the reply, and the ticks that follow change nothing. *)
Theorem SendPackets_slash_head_blocks `{!ChannelKeeper CK} `{!CCVTypes}
    (p : ConsumerPacketDataWithIdx) (rest : list ConsumerPacketDataWithIdx) :
  Type_ p = SlashPacket ->
  (∀ (ctxs : list Context) (w : World CK),
     pendingPackets w = p :: rest ->
     ∃ w', SendPacketsTicks ctxs w = Ok tt w'
           ∧ pendingPackets w' = p :: rest
           ∧ (∃ sent, calls w' = calls w ++ sent
                      ∧ Forall (fun call =>
                          ∃ channelID, providerChannel w = Some channelID
                                       ∧ call = sendOf channelID w p) sent)
           ∧ (state (slashRecord w) = WaitingForReply -> w' = w)
           ∧ (state (slashRecord w) = WaitingForBackoffAfterBounce ->
              Forall (fun ctx => BlockTime ctx < backoffUntil (slashRecord w)) ctxs ->
              w' = w))
  ∧ (∀ (ctx : Context) (channelID : string) (w w1 : World CK)
       (pre : list ConsumerPacketDataWithIdx) (ck : CK),
       providerChannel w = Some channelID ->
       pendingPackets w = pre ++ p :: rest ->
       NoDup (map Idx (pendingPackets w)) ->
       SentAll ctx channelID pre w w1 ->
       PacketSendingPermitted ctx w1 = Ok true w1 ->
       channelKeeper_SendPacket (channelKeeper w1) ConsumerPortID channelID
         (GetBytes p) (CcvTimeoutPeriod (params w1)) = (None, ck) ->
       ∃ w', SendPackets ctx w = Ok tt w'
             ∧ pendingPackets w' = p :: rest
             ∧ state (slashRecord w') = WaitingForReply
             ∧ calls w' = calls w ++ map (sendOf channelID w) pre ++ [sendOf channelID w p]
             ∧ ∀ ctxs, SendPacketsTicks ctxs w' = Ok tt w').
Proof.
  intros Hty. split.
  - intros ctxs w Hq.
    destruct (SendPacketsTicks_slash_head ctxs w p rest Hq Hty)
      as (w' & Hrun & Hq' & Hsent & Hwait & Hback & _).
    exists w'. done.
  - intros ctx channelID w w1 pre ck Hpc Hq Hnd Hsent Hperm Hsend.
    destruct (SendPackets_slash_sent ctx channelID w w1 pre rest p ck
                Hty Hpc Hq Hnd Hsent Hperm Hsend) as (w' & Hrun & Hq' & Hst & Hcalls).
    exists w'. split_and!; try done.
    intros ctxs.
    destruct (SendPacketsTicks_slash_head ctxs w' p rest Hq' Hty)
      as (w'' & Hrun' & _ & _ & Hwait & _).
    by rewrite Hrun', (Hwait Hst).
Qed.

Lemma SendPackets_slash_head_blocks_witness :
  ∃ w', SendPackets ctx0
          (with_slashRecord {| state := Idle; backoffUntil := 0 |} worldSlashSent)
        = Ok tt w'
        ∧ pendingPackets w' = [slashV1; maturedU1]
        ∧ state (slashRecord w') = WaitingForReply
        ∧ calls w' = [CallSendPacket "channel-0" "consumer" [x01] 100]
        ∧ SendPacketsTicks [ctx0; ctx0] w' = Ok tt w'.
Proof.
  destruct (SendPackets_slash_head_blocks slashV1 [maturedU1] eq_refl) as [_ Hsent].
  destruct (Hsent ctx0 "channel-0"
              (with_slashRecord {| state := Idle; backoffUntil := 0 |} worldSlashSent)
              (with_slashRecord {| state := Idle; backoffUntil := 0 |} worldSlashSent)
              []
              {| mockChannels := mockChannels mockKeeper0;
                 mockSendPacket := [];
                 mockChanCloseInit := [] |})
    as (w' & Hrun & Hq & Hst & Hcalls & Hticks); try reflexivity.
  - vm_compute. repeat constructor; set_solver.
  - apply SentAll_nil.
  - exists w'. split_and!; done.
Defined.

(** ** Further properties of the keeper methods *)

(** *** The send loop in general *)

(** The loop sends the entries of a prefix of the pending packets in their
    order and collects the indexes of all of them but possibly the last; no
    collected entry is a slash packet. It writes the channel keeper, the
    recorded calls, the log and the slash record, and nothing else. *)
Lemma SendPackets_loop_prefix `{!ChannelKeeper CK} `{!CCVTypes}
    (ctx : Context) (channelID : string)
    (pending : list ConsumerPacketDataWithIdx) (idxs : list N) (w : World CK) :
  ∃ (m n : nat) (w' : World CK),
    SendPackets_loop ctx channelID pending idxs w
    = Ok (idxs ++ map Idx (take m pending)) w'
    ∧ (m ≤ n)%nat ∧ (n ≤ S m)%nat ∧ (n ≤ length pending)%nat
    ∧ Forall (fun q => Type_ q ≠ SlashPacket) (take m pending)
    ∧ calls w' = calls w ++ map (sendOf channelID w) (take n pending)
    ∧ w' = with_logs (logs w')
             (with_calls (calls w')
                (with_channelKeeper (channelKeeper w')
                   (with_slashRecord (slashRecord w') w)))
    ∧ (slashRecord w' = slashRecord w
       ∨ (state (slashRecord w') = WaitingForReply
          ∧ ∃ p, pending !! m = Some p ∧ Type_ p = SlashPacket)).
Proof.
  revert idxs w. induction pending as [|p rest IH]; intros idxs w; simpl.
  - exists 0%nat, 0%nat, w. rewrite !app_nil_r.
    split_and!; try done; try lia; [by destruct w|by left].
  - unfold bind at 1. unfold PacketSendingPermitted, gets.
    destruct (match state (slashRecord w) with
              | WaitingForReply => false
              | WaitingForBackoffAfterBounce =>
                  bool_decide (backoffUntil (slashRecord w) ≤ BlockTime ctx)
              | _ => true
              end); simpl.
    + unfold bind at 1. unfold GetCCVTimeoutPeriod at 1, gets at 1.
      unfold bind at 1. unfold SendIBCPacket at 1.
      destruct (channelKeeper_SendPacket (channelKeeper w) ConsumerPortID channelID
                  (GetBytes p) (CcvTimeoutPeriod (params w))) as [[err|] ck] eqn:Hsend.
      * exists 0%nat, 1%nat.
        destruct (errors_Is err ErrClientNotActive); run; eexists;
          rewrite app_nil_r; (split; [reflexivity|]); simpl;
          split_and!; try done; try lia; by left.
      * destruct (decide (Type_ p = SlashPacket)) as [Hty|Hty].
        -- exists 0%nat, 1%nat. run. eexists. rewrite app_nil_r.
           split; [reflexivity|]. simpl. split_and!; try done; try lia.
           right. split; [done|]. by exists p.
        -- destruct (IH (idxs ++ [Idx p])
                       (with_calls (calls w ++ [sendOf channelID w p])
                          (with_channelKeeper ck w)))
             as (m & n & w' & Hrun & Hmn & Hnm & Hlen & Hall & Hcalls & Hframe & Hrec).
           exists (S m), (S n), w'. unfold sendOf in Hrun at 1. rewrite Hrun.
           simpl. rewrite <- app_assoc. simpl.
           split_and!; try done; try lia.
           { by constructor. }
           { rewrite Hcalls. simpl. rewrite <- app_assoc. done. }
    + exists 0%nat, 0%nat, w. rewrite app_nil_r. split_and!; try done; try lia.
      * by rewrite app_nil_r.
      * by destruct w.
      * by left.
Qed.

Lemma filter_all_sent (l : list ConsumerPacketDataWithIdx) :
  filter (fun q => Idx q ∉ map Idx l) l = [].
Proof.
  assert (∀ k : list ConsumerPacketDataWithIdx,
            (∀ q, q ∈ k -> Idx q ∈ map Idx l) ->
            filter (fun q => Idx q ∉ map Idx l) k = []) as Hall.
  { induction k as [|a k IH]; [done|]. intros Hin.
    rewrite filter_cons_False by (intros Hn; apply Hn, Hin; left).
    apply IH. intros q Hq. apply Hin. by right. }
  apply Hall. intros q Hq. by apply list_elem_of_In, in_map, list_elem_of_In.
Qed.

(** One tick in general, with a provider channel bound and distinct queue
    indexes: a prefix of the queue is sent in order, the entries sent are
    removed except possibly the last one, none of the removed entries is a
    slash packet, and the rest of the store is left alone. *)
Lemma SendPackets_prefix_frame `{!ChannelKeeper CK} `{!CCVTypes}
    (ctx : Context) (channelID : string) (w : World CK) :
  providerChannel w = Some channelID ->
  NoDup (map Idx (pendingPackets w)) ->
  ∃ (m n : nat) (w' : World CK),
    SendPackets ctx w = Ok tt w'
    ∧ (m ≤ n)%nat ∧ (n ≤ S m)%nat ∧ (n ≤ length (pendingPackets w))%nat
    ∧ Forall (fun q => Type_ q ≠ SlashPacket) (take m (pendingPackets w))
    ∧ calls w' = calls w ++ map (sendOf channelID w) (take n (pendingPackets w))
    ∧ w' = with_logs (logs w')
             (with_calls (calls w')
                (with_channelKeeper (channelKeeper w')
                   (with_slashRecord (slashRecord w')
                      (with_pendingPackets (drop m (pendingPackets w)) w))))
    ∧ (slashRecord w' = slashRecord w
       ∨ (state (slashRecord w') = WaitingForReply
          ∧ ∃ p, pendingPackets w !! m = Some p ∧ Type_ p = SlashPacket)).
Proof.
  intros Hpc Hnd. unfold SendPackets.
  unfold bind at 1. unfold GetProviderChannel at 1, gets at 1. rewrite Hpc.
  unfold bind at 1. unfold GetAllPendingPacketsWithIdx at 1, gets at 1.
  destruct (SendPackets_loop_prefix ctx channelID (pendingPackets w) [] w)
    as (m & n & w1 & Hrun & Hmn & Hnm & Hlen & Hall & Hcalls & Hframe & Hrec).
  unfold bind at 1. rewrite Hrun. simpl.
  assert (Hq1 : pendingPackets w1 = pendingPackets w) by (rewrite Hframe; done).
  assert (Hkeep : filter (fun q => Idx q ∉ map Idx (take m (pendingPackets w)))
                    (pendingPackets w1) = drop m (pendingPackets w)).
  { pose proof (filter_sent_prefix (take m (pendingPackets w))
                  (drop m (pendingPackets w))) as Hf.
    rewrite take_drop in Hf. rewrite Hq1. by apply Hf. }
  run. rewrite Hkeep. exists m, n. eexists. split; [reflexivity|]. simpl.
  split_and!; try done. rewrite Hframe at 1. unfold_with. done.
Qed.

(** One tick in general: what [SendPackets] may write. *)
Lemma SendPackets_frame `{!ChannelKeeper CK} `{!CCVTypes}
    (ctx : Context) (w : World CK) :
  ∃ w', SendPackets ctx w = Ok tt w'
        ∧ w' = with_logs (logs w')
                 (with_calls (calls w')
                    (with_channelKeeper (channelKeeper w')
                       (with_slashRecord (slashRecord w')
                          (with_pendingPackets (pendingPackets w') w)))).
Proof.
  unfold SendPackets.
  unfold bind at 1. unfold GetProviderChannel at 1, gets at 1.
  destruct (providerChannel w) as [channelID|].
  - unfold bind at 1. unfold GetAllPendingPacketsWithIdx at 1, gets at 1.
    destruct (SendPackets_loop_prefix ctx channelID (pendingPackets w) [] w)
      as (m & n & w1 & Hrun & _ & _ & _ & _ & _ & Hframe & _).
    unfold bind at 1. rewrite Hrun. run. eexists. split; [reflexivity|].
    simpl.
    generalize (filter (fun p => Idx p ∉ map Idx (take m (pendingPackets w)))
                  (pendingPackets w1)).
    intros q. rewrite Hframe at 1. unfold_with. done.
  - exists w. split; [done|]. by destruct w.
Qed.

(** X1: with a provider channel bound and distinct queue indexes,
    [SendPackets] sends the entries of a prefix of the queue, in the order of
    the queue, each once; what it removes from the queue is that prefix, or
    that prefix without its last entry, and no removed entry is a slash
    packet. *)
Theorem SendPackets_sends_queue_prefix `{!ChannelKeeper CK} `{!CCVTypes}
    (ctx : Context) (channelID : string) (w : World CK) :
  providerChannel w = Some channelID ->
  NoDup (map Idx (pendingPackets w)) ->
  ∃ (m n : nat) (w' : World CK),
    SendPackets ctx w = Ok tt w'
    ∧ (m ≤ n)%nat ∧ (n ≤ S m)%nat ∧ (n ≤ length (pendingPackets w))%nat
    ∧ calls w' = calls w ++ map (sendOf channelID w) (take n (pendingPackets w))
    ∧ pendingPackets w' = drop m (pendingPackets w)
    ∧ Forall (fun q => Type_ q ≠ SlashPacket) (take m (pendingPackets w)).
Proof.
  intros Hpc Hnd.
  destruct (SendPackets_prefix_frame ctx channelID w Hpc Hnd)
    as (m & n & w' & Hrun & Hmn & Hnm & Hlen & Hall & Hcalls & Hframe & _).
  exists m, n, w'. split_and!; try done. rewrite Hframe. done.
Qed.

Lemma SendPackets_sends_queue_prefix_witness :
  ∃ (m n : nat) (w' : World MockChannelKeeper),
    SendPackets ctx0 worldClientExpired = Ok tt w'
    ∧ (m ≤ n)%nat ∧ (n ≤ S m)%nat ∧ (n ≤ length (pendingPackets worldClientExpired))%nat
    ∧ calls w' = calls worldClientExpired ++
        map (sendOf "channel-0" worldClientExpired)
          (take n (pendingPackets worldClientExpired))
    ∧ pendingPackets w' = drop m (pendingPackets worldClientExpired)
    ∧ Forall (fun q => Type_ q ≠ SlashPacket)
        (take m (pendingPackets worldClientExpired)).
Proof.
  apply (SendPackets_sends_queue_prefix ctx0 "channel-0" worldClientExpired).
  - reflexivity.
  - vm_compute. repeat constructor; set_solver.
Defined.

(** X2: [SendPackets] leaves the provider channel, the pending changes, the
    height mapping, the outstanding-downtime set, the next queue index, the
    events and the parameters as they are, and with distinct queue indexes
    every slash packet of the queue is still in the queue afterwards. *)
Theorem SendPackets_keeps_slash_packets `{!ChannelKeeper CK} `{!CCVTypes}
    (ctx : Context) (w : World CK) :
  NoDup (map Idx (pendingPackets w)) ->
  ∃ w', SendPackets ctx w = Ok tt w'
        ∧ providerChannel w' = providerChannel w
        ∧ pendingChanges w' = pendingChanges w
        ∧ heightValsetUpdateID w' = heightValsetUpdateID w
        ∧ outstandingDowntime w' = outstandingDowntime w
        ∧ pendingPacketsIdx w' = pendingPacketsIdx w
        ∧ events w' = events w
        ∧ params w' = params w
        ∧ ∀ q, q ∈ pendingPackets w -> Type_ q = SlashPacket ->
               q ∈ pendingPackets w'.
Proof.
  intros Hnd. destruct (providerChannel w) as [channelID|] eqn:Hpc.
  - destruct (SendPackets_prefix_frame ctx channelID w Hpc Hnd)
      as (m & n & w' & Hrun & Hmn & Hnm & Hlen & Hall & Hcalls & Hframe & _).
    exists w'. split; [done|]. rewrite Hframe. simpl. split_and!; try done.
    intros q Hin Hty. rewrite <- (take_drop m (pendingPackets w)) in Hin.
    apply elem_of_app in Hin as [Hin|Hin]; [|done].
    rewrite Forall_forall in Hall. by destruct (Hall q Hin).
  - exists w. split; [|done]. unfold SendPackets.
    unfold bind at 1. unfold GetProviderChannel at 1, gets at 1. by rewrite Hpc.
Qed.

Lemma SendPackets_keeps_slash_packets_witness :
  ∃ w', SendPackets ctx0 worldClientExpired = Ok tt w'
        ∧ providerChannel w' = providerChannel worldClientExpired
        ∧ pendingChanges w' = pendingChanges worldClientExpired
        ∧ heightValsetUpdateID w' = heightValsetUpdateID worldClientExpired
        ∧ outstandingDowntime w' = outstandingDowntime worldClientExpired
        ∧ pendingPacketsIdx w' = pendingPacketsIdx worldClientExpired
        ∧ events w' = events worldClientExpired
        ∧ params w' = params worldClientExpired
        ∧ ∀ q, q ∈ pendingPackets worldClientExpired -> Type_ q = SlashPacket ->
               q ∈ pendingPackets w'.
Proof.
  apply (SendPackets_keeps_slash_packets ctx0 worldClientExpired).
  vm_compute. repeat constructor; set_solver.
Defined.

(** X3: when every entry of the queue is sent with success and none is a
    slash packet, [SendPackets] empties the queue, having sent each entry once
    in the order of the queue, and leaves the slash record and the log as they
    are. *)
Theorem SendPackets_all_sent_empties_queue `{!ChannelKeeper CK} `{!CCVTypes}
    (ctx : Context) (channelID : string) (w w1 : World CK) :
  providerChannel w = Some channelID ->
  SentAll ctx channelID (pendingPackets w) w w1 ->
  ∃ w', SendPackets ctx w = Ok tt w'
        ∧ pendingPackets w' = []
        ∧ calls w' = calls w ++ map (sendOf channelID w) (pendingPackets w)
        ∧ slashRecord w' = slashRecord w
        ∧ logs w' = logs w.
Proof.
  intros Hpc Hsent.
  destruct (SentAll_frame ctx channelID _ w w1 Hsent) as [Hw1 _].
  unfold SendPackets. unfold bind at 1. unfold GetProviderChannel at 1, gets at 1.
  rewrite Hpc. unfold bind at 1. unfold GetAllPendingPacketsWithIdx at 1, gets at 1.
  unfold bind at 1.
  pose proof (SendPackets_loop_SentAll ctx channelID (pendingPackets w) [] [] w w1 Hsent)
    as Hloop.
  rewrite app_nil_r in Hloop. rewrite Hloop. simpl.
  assert (Hq1 : pendingPackets w1 = pendingPackets w) by (rewrite Hw1; done).
  run. rewrite Hq1, filter_all_sent. eexists. split; [reflexivity|]. simpl.
  rewrite Hw1. done.
Qed.

Lemma SendPackets_all_sent_empties_queue_witness :
  ∃ w', SendPackets ctx0 (with_pendingPackets [maturedU0; maturedU1] worldBound)
        = Ok tt w'
        ∧ pendingPackets w' = []
        ∧ calls w' = [CallSendPacket "channel-0" "consumer" [x02] 100;
                      CallSendPacket "channel-0" "consumer" [x02] 100]
        ∧ slashRecord w' = {| state := Idle; backoffUntil := 0 |}
        ∧ logs w' = [].
Proof.
  destruct (SendPackets_all_sent_empties_queue ctx0 "channel-0"
              (with_pendingPackets [maturedU0; maturedU1] worldBound)
              (with_calls [CallSendPacket "channel-0" "consumer" [x02] 100;
                           CallSendPacket "channel-0" "consumer" [x02] 100]
                 (with_pendingPackets [maturedU0; maturedU1] worldBound)))
    as (w' & Hrun & Hq & Hcalls & Hrec & Hlogs); [reflexivity| |].
  - eapply SentAll_cons; [reflexivity|reflexivity|discriminate|].
    eapply SentAll_cons; [reflexivity|reflexivity|discriminate|].
    apply SentAll_nil.
  - exists w'. split_and!; done.
Defined.

Lemma DeletePendingDataPackets_nil `{!ChannelKeeper CK} (w : World CK) :
  DeletePendingDataPackets [] w = Ok tt w.
Proof.
  unfold DeletePendingDataPackets, modify. rewrite filter_not_in_nil.
  by destruct w.
Qed.

(** X4: [SendPackets] changes nothing when no provider channel is bound,
    when the queue is empty, or when sending is not permitted. *)
Theorem SendPackets_noop `{!ChannelKeeper CK} `{!CCVTypes}
    (ctx : Context) (w : World CK) :
  providerChannel w = None
  ∨ pendingPackets w = []
  ∨ PacketSendingPermitted ctx w = Ok false w ->
  SendPackets ctx w = Ok tt w.
Proof.
  intros Hcase. unfold SendPackets.
  unfold bind at 1. unfold GetProviderChannel at 1, gets at 1.
  destruct (providerChannel w) as [channelID|] eqn:Hpc; [|done].
  unfold bind at 1. unfold GetAllPendingPacketsWithIdx at 1, gets at 1.
  destruct (pendingPackets w) as [|p rest] eqn:Hq; simpl.
  - unfold bind, ret. apply DeletePendingDataPackets_nil.
  - destruct Hcase as [?|[?|Hperm]]; [done..|].
    unfold bind at 1. unfold bind at 1. rewrite Hperm. simpl.
    apply DeletePendingDataPackets_nil.
Qed.

Lemma SendPackets_noop_witness :
  SendPackets ctx0 worldSlashSent = Ok tt worldSlashSent.
Proof.
  apply (SendPackets_noop ctx0 worldSlashSent). right. right. reflexivity.
Defined.

(** *** Receiving validator-set changes: heights and slash acknowledgements *)

(** The loop over the slash acknowledgements removes the decoded addresses
    from the outstanding-downtime set and logs one error line per
    acknowledgement that does not decode. *)
Lemma slashAcks_loop_exact `{!ChannelKeeper CK} `{!CCVTypes}
    (acks : list string) (w : World CK) :
  forEach acks (fun ack =>
    match GetConsAddrFromBech32 ack with
    | None => Logger LogError "invalid consensus address in VSCPacket.SlashAcks"
    | Some consAddr => DeleteOutstandingDowntime consAddr
    end) w
  = Ok tt
      (with_logs (logs w ++ invalidAckLines acks)
         (with_outstandingDowntime (clearAcked acks (outstandingDowntime w)) w)).
Proof.
  revert w. induction acks as [|ack acks IH]; intros w.
  - unfold clearAcked, invalidAckLines. simpl.
    rewrite app_nil_r, difference_empty_L. by destruct w.
  - cbn [forEach]. unfold bind at 1.
    assert (Hlines : invalidAckLines (ack :: acks)
                     = (if GetConsAddrFromBech32 ack is Some _ then []
                        else [invalidSlashAckLine]) ++ invalidAckLines acks).
    { unfold invalidAckLines. rewrite filter_cons.
      destruct (GetConsAddrFromBech32 ack); [by rewrite decide_False|].
      by rewrite decide_True. }
    assert (Hset : ∀ downtime,
              clearAcked (ack :: acks) downtime
              = clearAcked acks
                  (if GetConsAddrFromBech32 ack is Some consAddr
                   then downtime ∖ {[consAddr]} else downtime)).
    { intros downtime. unfold clearAcked. cbn [omap list_omap].
      destruct (GetConsAddrFromBech32 ack) as [consAddr|]; [|done].
      cbn [list_to_set foldr]. apply set_eq. intros a. set_solver. }
    rewrite Hlines, Hset.
    destruct (GetConsAddrFromBech32 ack) as [consAddr|].
    + unfold DeleteOutstandingDowntime, modify. rewrite IH. reflexivity.
    + unfold Logger, modify. rewrite IH. unfold invalidSlashAckLine.
      cbn [logs with_logs outstandingDowntime]. rewrite <- app_assoc. reflexivity.
Qed.

(** The world after a valid batch, entry by entry. *)
Lemma OnRecvVSCPacket_valid_exact `{!ChannelKeeper CK} `{!CCVTypes}
    (ctx : Context) (packet : Packet) (newChanges : ValidatorSetChangePacketData)
    (w : World CK) :
  Validate newChanges = None ->
  providerChannel w = None ∨ providerChannel w = Some (DestinationChannel packet) ->
  OnRecvVSCPacket ctx packet newChanges w
  = Ok None
      {| params := params w;
         providerChannel := Some (DestinationChannel packet);
         pendingChanges :=
           Some {| ValidatorUpdates :=
                     AccumulateChanges (currentValUpdates w)
                       (ValidatorUpdates newChanges);
                   ValsetUpdateId := 0;
                   SlashAcks := [] |};
         heightValsetUpdateID :=
           <[uint64 (uint64 (BlockHeight ctx) + 1) := ValsetUpdateId newChanges]>
             (heightValsetUpdateID w);
         outstandingDowntime :=
           clearAcked (SlashAcks newChanges) (outstandingDowntime w);
         pendingPackets := pendingPackets w;
         pendingPacketsIdx := pendingPacketsIdx w;
         slashRecord := slashRecord w;
         channelKeeper := channelKeeper w;
         calls := calls w;
         events :=
           events w ++
           (if providerChannel w is Some _ then []
            else [EventTypeChannelEstablished (DestinationChannel packet)
                    (DestinationPort packet)]);
         logs :=
           logs w ++
           (if providerChannel w is Some _ then []
            else [(LogInfo, "CCV channel established")]) ++
           [(LogDebug, "block height was mapped to vscID")] ++
           invalidAckLines (SlashAcks newChanges) ++
           [(LogInfo, "finished receiving/handling VSCPacket")] |}.
Proof.
  intros Hval Hch. unfold OnRecvVSCPacket. rewrite Hval.
  pose proof (slashAcks_loop_exact (SlashAcks newChanges)) as Hloop.
  unfold bind at 1. unfold GetProviderChannel at 1, gets at 1.
  unfold currentValUpdates.
  destruct Hch as [Hch|Hch]; rewrite Hch.
  - run. rewrite Hloop. clear Hloop. simpl. rewrite <- !app_assoc. reflexivity.
  - rewrite decide_False by (intros Hne; by apply Hne).
    run. rewrite Hloop. clear Hloop. simpl. rewrite app_nil_r, <- !app_assoc.
    destruct w; simpl in *; subst; reflexivity.
Qed.

(** X5: a valid batch delivered on an admissible channel is recorded in the
    height mapping under the next block height, computed in uint64: the key
    lies in the uint64 range, it is the block height plus one for a block
    height that is not negative, the batch's update id is found under it, and
    the other heights keep what they had. *)
Theorem OnRecvVSCPacket_maps_next_height `{!ChannelKeeper CK} `{!CCVTypes}
    (ctx : Context) (packet : Packet) (newChanges : ValidatorSetChangePacketData)
    (w : World CK) :
  Validate newChanges = None ->
  providerChannel w = None ∨ providerChannel w = Some (DestinationChannel packet) ->
  - 2 ^ 63 ≤ BlockHeight ctx < 2 ^ 63 ->
  ∃ w' blockHeight,
    OnRecvVSCPacket ctx packet newChanges w = Ok None w'
    ∧ 0 ≤ blockHeight < 2 ^ 64
    ∧ (0 ≤ BlockHeight ctx -> blockHeight = BlockHeight ctx + 1)
    ∧ (BlockHeight ctx = -1 -> blockHeight = 0)
    ∧ heightValsetUpdateID w' !! blockHeight = Some (ValsetUpdateId newChanges)
    ∧ ∀ height, height ≠ blockHeight ->
        heightValsetUpdateID w' !! height = heightValsetUpdateID w !! height.
Proof.
  intros Hval Hch Hrange.
  eexists _, (uint64 (uint64 (BlockHeight ctx) + 1)).
  split; [exact (OnRecvVSCPacket_valid_exact ctx packet newChanges w Hval Hch)|].
  simpl. unfold uint64. split_and!.
  - apply Z.mod_pos_bound. lia.
  - apply Z.mod_pos_bound. lia.
  - intros Hpos. rewrite (Z.mod_small (BlockHeight ctx)) by lia.
    apply Z.mod_small. lia.
  - intros ->. reflexivity.
  - apply lookup_insert_eq.
  - intros height Hne. by apply lookup_insert_ne.
Qed.

Lemma OnRecvVSCPacket_maps_next_height_witness :
  ∃ w' blockHeight,
    OnRecvVSCPacket ctx0 (packetOn "channel-0" []) ackBatch worldSlashSent = Ok None w'
    ∧ 0 ≤ blockHeight < 2 ^ 64
    ∧ (0 ≤ BlockHeight ctx0 -> blockHeight = BlockHeight ctx0 + 1)
    ∧ (BlockHeight ctx0 = -1 -> blockHeight = 0)
    ∧ heightValsetUpdateID w' !! blockHeight = Some (ValsetUpdateId ackBatch)
    ∧ ∀ height, height ≠ blockHeight ->
        heightValsetUpdateID w' !! height
        = heightValsetUpdateID worldSlashSent !! height.
Proof.
  apply (OnRecvVSCPacket_maps_next_height ctx0 (packetOn "channel-0" []) ackBatch
           worldSlashSent).
  - reflexivity.
  - right. reflexivity.
  - simpl. lia.
Defined.

(** X6: a valid batch delivered on an admissible channel returns nil
    whatever its slash acknowledgements are; an address stays in the
    outstanding-downtime set exactly when it was there and no acknowledgement
    decodes to it, and the log gains one error line per acknowledgement that
    does not decode. *)
Theorem OnRecvVSCPacket_clears_acked_downtime `{!ChannelKeeper CK} `{!CCVTypes}
    (ctx : Context) (packet : Packet) (newChanges : ValidatorSetChangePacketData)
    (w : World CK) :
  Validate newChanges = None ->
  providerChannel w = None ∨ providerChannel w = Some (DestinationChannel packet) ->
  ∃ w',
    OnRecvVSCPacket ctx packet newChanges w = Ok None w'
    ∧ (∀ consAddr,
         consAddr ∈ outstandingDowntime w'
         ↔ consAddr ∈ outstandingDowntime w
           ∧ ∀ ack, ack ∈ SlashAcks newChanges ->
                    GetConsAddrFromBech32 ack ≠ Some consAddr)
    ∧ length (filter (fun line => line = invalidSlashAckLine) (logs w'))
      = (length (filter (fun line => line = invalidSlashAckLine) (logs w))
         + length (filter (fun ack => GetConsAddrFromBech32 ack = None)
                     (SlashAcks newChanges)))%nat.
Proof.
  intros Hval Hch. eexists.
  split; [exact (OnRecvVSCPacket_valid_exact ctx packet newChanges w Hval Hch)|].
  cbn [outstandingDowntime logs]. split.
  - intros consAddr. unfold clearAcked.
    rewrite elem_of_difference, elem_of_list_to_set, list_elem_of_omap. split.
    + intros [Hin Hnot]. split; [done|]. intros ack Hack Hdec. apply Hnot. eauto.
    + intros [Hin Hnot]. split; [done|]. intros (ack & Hack & Hdec).
      by apply (Hnot ack).
  - rewrite !filter_app, !length_app.
    assert (Hrep : ∀ k, filter (fun line => line = invalidSlashAckLine)
                          (replicate k invalidSlashAckLine)
                        = replicate k invalidSlashAckLine).
    { induction k as [|k IH]; [done|]. cbn [replicate].
      rewrite filter_cons_True by done. by rewrite IH. }
    assert (Hother : ∀ level msg, level ≠ LogError ->
              filter (fun line => line = invalidSlashAckLine) [(level, msg)] = []).
    { intros level msg Hlevel. rewrite filter_cons_False; [done|].
      unfold invalidSlashAckLine. congruence. }
    unfold invalidAckLines. rewrite Hrep, length_replicate.
    rewrite !Hother by done.
    destruct (providerChannel w); rewrite ?Hother, ?filter_nil by done;
      cbn [length]; lia.
Qed.

Lemma OnRecvVSCPacket_clears_acked_downtime_witness :
  ∃ w',
    OnRecvVSCPacket ctx0 (packetOn "channel-0" []) ackBatch worldSlashSent = Ok None w'
    ∧ (∀ consAddr,
         consAddr ∈ outstandingDowntime w'
         ↔ consAddr ∈ outstandingDowntime worldSlashSent
           ∧ ∀ ack, ack ∈ SlashAcks ackBatch ->
                    GetConsAddrFromBech32 ack ≠ Some consAddr)
    ∧ length (filter (fun line => line = invalidSlashAckLine) (logs w'))
      = (length (filter (fun line => line = invalidSlashAckLine) (logs worldSlashSent))
         + length (filter (fun ack => GetConsAddrFromBech32 ack = None)
                     (SlashAcks ackBatch)))%nat.
Proof.
  apply (OnRecvVSCPacket_clears_acked_downtime ctx0 (packetOn "channel-0" []) ackBatch
           worldSlashSent).
  - reflexivity.
  - right. reflexivity.
Defined.

(** What [OnRecvVSCPacket] leaves alone. *)
Lemma OnRecvVSCPacket_frame `{!ChannelKeeper CK} `{!CCVTypes}
    (ctx : Context) (packet : Packet) (newChanges : ValidatorSetChangePacketData)
    (w w' : World CK) (err : option Error) :
  OnRecvVSCPacket ctx packet newChanges w = Ok err w' ->
  pendingPackets w' = pendingPackets w
  ∧ pendingPacketsIdx w' = pendingPacketsIdx w
  ∧ slashRecord w' = slashRecord w
  ∧ params w' = params w
  ∧ calls w' = calls w
  ∧ channelKeeper w' = channelKeeper w.
Proof.
  intros Hrun. pose proof (OnRecvVSCPacket_step _ _ _ _ _ _ Hrun) as Hstep.
  destruct err as [e|]; [by subst|].
  destruct Hstep as (_ & Hch & _).
  destruct (Validate newChanges) as [e|] eqn:Hval.
  - unfold OnRecvVSCPacket in Hrun. rewrite Hval in Hrun. discriminate.
  - rewrite (OnRecvVSCPacket_valid_exact ctx packet newChanges w Hval Hch) in Hrun.
    by injection Hrun as <-.
Qed.

(** X7: whatever [OnRecvVSCPacket] returns, it leaves the pending packet
    queue, the next queue index, the slash record and the parameters as they
    are, and it makes no call to the channel keeper. *)
Theorem OnRecvVSCPacket_never_sends `{!ChannelKeeper CK} `{!CCVTypes}
    (ctx : Context) (packet : Packet) (newChanges : ValidatorSetChangePacketData)
    (w w' : World CK) (err : option Error) :
  OnRecvVSCPacket ctx packet newChanges w = Ok err w' ->
  pendingPackets w' = pendingPackets w
  ∧ pendingPacketsIdx w' = pendingPacketsIdx w
  ∧ slashRecord w' = slashRecord w
  ∧ params w' = params w
  ∧ calls w' = calls w
  ∧ channelKeeper w' = channelKeeper w.
Proof. apply OnRecvVSCPacket_frame. Qed.

Lemma OnRecvVSCPacket_never_sends_witness :
  ∃ w', OnRecvVSCPacket ctx0 (packetOn "channel-0" []) ackBatch worldSlashSent
        = Ok None w'
        ∧ pendingPackets w' = [slashV1; maturedU1]
        ∧ calls w' = [].
Proof.
  destruct (OnRecvVSCPacket ctx0 (packetOn "channel-0" []) ackBatch worldSlashSent)
    as [err w'|] eqn:Hrun; [|vm_compute in Hrun; discriminate].
  destruct (OnRecvVSCPacket_never_sends ctx0 (packetOn "channel-0" []) ackBatch
              worldSlashSent w' err Hrun) as (Hq & _ & _ & _ & Hcalls & _).
  exists w'. split_and!; try done.
  vm_compute in Hrun. by injection Hrun as <- _.
Defined.

(** X8: once a valid batch on an admissible channel has acknowledged the
    downtime slash of a validator, the validator is no longer outstanding and
    [QueueSlashPacket] queues a new downtime slash for it, which makes it
    outstanding again. *)
Theorem QueueSlashPacket_after_slash_ack `{!ChannelKeeper CK} `{!CCVTypes}
    (ctx ctx' : Context) (packet : Packet) (newChanges : ValidatorSetChangePacketData)
    (w : World CK) (validator : Validator) (valsetUpdateID : Z) (ack : string) :
  Validate newChanges = None ->
  providerChannel w = None ∨ providerChannel w = Some (DestinationChannel packet) ->
  ack ∈ SlashAcks newChanges ->
  GetConsAddrFromBech32 ack = Some (Address validator) ->
  ∃ w' w'',
    OnRecvVSCPacket ctx packet newChanges w = Ok None w'
    ∧ (Address validator ∉ outstandingDowntime w')
    ∧ QueueSlashPacket ctx' validator valsetUpdateID Infraction_INFRACTION_DOWNTIME w'
      = Ok tt w''
    ∧ pendingPackets w''
      = pendingPackets w ++
        [{| Type_ := SlashPacket;
            Data := ConsumerPacketData_SlashPacketData
                      (NewSlashPacketData validator valsetUpdateID
                         Infraction_INFRACTION_DOWNTIME);
            Idx := pendingPacketsIdx w |}]
    ∧ Address validator ∈ outstandingDowntime w''.
Proof.
  intros Hval Hch Hack Hdec. eexists _, _.
  split; [exact (OnRecvVSCPacket_valid_exact ctx packet newChanges w Hval Hch)|].
  assert (Hout : Address validator
                 ∉ clearAcked (SlashAcks newChanges) (outstandingDowntime w)).
  { unfold clearAcked.
    rewrite elem_of_difference, elem_of_list_to_set, list_elem_of_omap.
    intros [_ Hnot]. apply Hnot. eauto. }
  split; [exact Hout|].
  unfold QueueSlashPacket. run. rewrite (bool_decide_eq_false_2 _ Hout). simpl.
  split; [reflexivity|]. simpl. split; [done|]. set_solver.
Qed.

Lemma QueueSlashPacket_after_slash_ack_witness :
  ∃ w' w'',
    OnRecvVSCPacket ctx0 (packetOn "channel-0" []) ackBatch worldSlashSent = Ok None w'
    ∧ (Address validatorV1 ∉ outstandingDowntime w')
    ∧ QueueSlashPacket ctx0 validatorV1 3 Infraction_INFRACTION_DOWNTIME w' = Ok tt w''
    ∧ pendingPackets w''
      = pendingPackets worldSlashSent ++
        [{| Type_ := SlashPacket;
            Data := ConsumerPacketData_SlashPacketData
                      (NewSlashPacketData validatorV1 3 Infraction_INFRACTION_DOWNTIME);
            Idx := pendingPacketsIdx worldSlashSent |}]
    ∧ Address validatorV1 ∈ outstandingDowntime w''.
Proof.
  apply (QueueSlashPacket_after_slash_ack ctx0 ctx0 (packetOn "channel-0" []) ackBatch
           worldSlashSent validatorV1 3 "V1").
  - reflexivity.
  - right. reflexivity.
  - simpl. left.
  - reflexivity.
Defined.

(** *** Acknowledgements: edge cases and what is left alone *)

(** The handling of an error acknowledgement writes the channel keeper, the
    recorded calls and the log only, and the calls it makes are close
    requests. *)
Lemma OnAcknowledgementPacket_error_frame `{!ChannelKeeper CK} `{!CCVTypes}
    (ctx : Context) (packet : Packet) (ack : Acknowledgement)
    (w w' : World CK) (err : option Error) :
  OnAcknowledgementPacket_error ctx packet ack w = Ok err w' ->
  w' = with_logs (logs w')
         (with_calls (calls w') (with_channelKeeper (channelKeeper w') w))
  ∧ ∃ closes, calls w' = calls w ++ closes
              ∧ Forall (fun call => ∃ portID channelID,
                                      call = CallChanCloseInit portID channelID) closes.
Proof.
  unfold OnAcknowledgementPacket_error.
  destruct (decide (GetError ack ≠ "")) as [Hne|Hempty].
  - run.
    destruct (channelKeeper_ChanCloseInit (channelKeeper w) (SourcePort packet)
                (SourceChannel packet)) as [[e|] ck1]; simpl.
    + intros [= <- <-]. simpl. split; [done|].
      eexists [_]. split; [done|]. repeat constructor. eauto.
    + destruct (providerChannel w) as [channelID|]; simpl.
      * destruct (decide (channelID ≠ SourceChannel packet)); simpl.
        -- destruct (channelKeeper_ChanCloseInit ck1 ConsumerPortID channelID)
             as [e2 ck2]; simpl.
           intros [= <- <-]. simpl. split; [done|].
           eexists [_; _]. rewrite <- app_assoc. split; [done|].
           repeat constructor; eauto.
        -- intros [= <- <-]. simpl. split; [done|].
           eexists [_]. split; [done|]. repeat constructor. eauto.
      * intros [= <- <-]. simpl. split; [done|].
        eexists [_]. split; [done|]. repeat constructor. eauto.
  - unfold ret. intros [= <- <-]. split; [by destruct w|].
    exists []. by rewrite app_nil_r.
Qed.

(** [OnAcknowledgementPacket] writes the queue, the slash record, the channel
    keeper, the recorded calls and the log only. The queue stays or loses its
    head; when it loses its head the slash record is idle. The calls it makes
    are close requests. *)
Lemma OnAcknowledgementPacket_frame `{!ChannelKeeper CK} `{!CCVTypes}
    (ctx : Context) (packet : Packet) (ack : Acknowledgement)
    (w w' : World CK) (err : option Error) :
  OnAcknowledgementPacket ctx packet ack w = Ok err w' ->
  w' = with_logs (logs w')
         (with_calls (calls w')
            (with_channelKeeper (channelKeeper w')
               (with_slashRecord (slashRecord w')
                  (with_pendingPackets (pendingPackets w') w))))
  ∧ ((pendingPackets w' = pendingPackets w
      ∧ (slashRecord w' = slashRecord w
         ∨ state (slashRecord w') = WaitingForBackoffAfterBounce))
     ∨ (pendingPackets w' = tail (pendingPackets w)
        ∧ state (slashRecord w') = Idle))
  ∧ ∃ closes, calls w' = calls w ++ closes
              ∧ Forall (fun call => ∃ portID channelID,
                                      call = CallChanCloseInit portID channelID) closes.
Proof.
  assert (Hsame : ∀ w0 : World CK,
            w0 = with_logs (logs w0)
                   (with_calls (calls w0)
                      (with_channelKeeper (channelKeeper w0)
                         (with_slashRecord (slashRecord w0)
                            (with_pendingPackets (pendingPackets w0) w0)))))
    by (by intros []).
  assert (Hnone : ∃ closes : list ExternalCall,
            calls w = calls w ++ closes
            ∧ Forall (fun call => ∃ portID channelID,
                                    call = CallChanCloseInit portID channelID) closes)
    by (exists []; by rewrite app_nil_r).
  unfold OnAcknowledgementPacket.
  destruct (GetResult ack) as [res|] eqn:Hres.
  - assert (Hfall : ∀ w0 : World CK,
              OnAcknowledgementPacket_error ctx packet ack w0 = Ok None w0).
    { intros w0. unfold OnAcknowledgementPacket_error.
      destruct ack as [r|e]; [|done]. reflexivity. }
    destruct res as [|res0 [|res1 res]].
    + unfold ret. intros [= <- <-]. split_and!; auto.
    + destruct (UnmarshalJSON (GetData packet)) as [consumerPacket|]; [|done].
      destruct (decide (V1Type consumerPacket = VscMaturedPacket)).
      { unfold ret. intros [= <- <-]. split_and!; auto. }
      destruct (decide (res0 = V1Result)).
      { unfold bind, ClearSlashRecord, DeleteHeadOfPendingPackets, modify.
        rewrite Hfall. intros [= <- <-]. simpl. split_and!; auto. }
      destruct (decide (res0 = SlashPacketHandledResult)).
      { unfold bind, ClearSlashRecord, DeleteHeadOfPendingPackets, modify.
        rewrite Hfall. intros [= <- <-]. simpl. split_and!; auto. }
      destruct (decide (res0 = SlashPacketBouncedResult)).
      { unfold bind, UpdateSlashRecordOnBounce, modify.
        rewrite Hfall. intros [= <- <-]. simpl. split_and!; auto. }
      unfold ret. intros [= <- <-]. split_and!; auto.
    + unfold ret. intros [= <- <-]. split_and!; auto.
  - intros Hrun.
    destruct (OnAcknowledgementPacket_error_frame ctx packet ack w w' err Hrun)
      as [Hframe Hcalls].
    assert (Hq : pendingPackets w' = pendingPackets w) by (rewrite Hframe; done).
    assert (Hrec : slashRecord w' = slashRecord w) by (rewrite Hframe; done).
    split_and!; [|by auto|done].
    rewrite Hq, Hrec. rewrite Hframe at 1. by destruct w.
Qed.

(** X9: the degenerate acknowledgements. A result that is not exactly one
    byte long, the empty one included, is returned as a length error before
    the packet data is decoded, the world untouched; a one-byte result for
    packet data that does not decode panics, whatever the byte; a result
    acknowledgement with a nil result and an error acknowledgement with an
    empty text return nil and change nothing. *)
Theorem OnAcknowledgementPacket_degenerate `{!ChannelKeeper CK} `{!CCVTypes}
    (ctx : Context) (packet : Packet) (w : World CK) :
  (∀ res, length res ≠ 1%nat ->
     OnAcknowledgementPacket ctx packet (Acknowledgement_Result (Some res)) w
     = Ok (Some (ErrAckResultLength (length res))) w)
  ∧ (∀ res0, UnmarshalJSON (GetData packet) = None ->
       OnAcknowledgementPacket ctx packet (Acknowledgement_Result (Some [res0])) w
       = Panicked PanicUnmarshal)
  ∧ OnAcknowledgementPacket ctx packet (Acknowledgement_Result None) w = Ok None w
  ∧ OnAcknowledgementPacket ctx packet (Acknowledgement_Error "") w = Ok None w.
Proof.
  split_and!.
  - intros [|res0 [|res1 res]] Hlen; simpl in *; done.
  - intros res0 Hdec. unfold OnAcknowledgementPacket. simpl. by rewrite Hdec.
  - reflexivity.
  - reflexivity.
Qed.

Lemma OnAcknowledgementPacket_degenerate_witness :
  OnAcknowledgementPacket ctx0 (packetOn "channel-0" [xff])
    (Acknowledgement_Result (Some [])) worldSlashSent
  = Ok (Some (ErrAckResultLength 0)) worldSlashSent
  ∧ OnAcknowledgementPacket ctx0 (packetOn "channel-0" [xff])
      (Acknowledgement_Result (Some [x02])) worldSlashSent
    = Panicked PanicUnmarshal.
Proof.
  destruct (OnAcknowledgementPacket_degenerate ctx0 (packetOn "channel-0" [xff])
              worldSlashSent) as (Hlen & Hpanic & _ & _).
  split.
  - apply (Hlen []). simpl. lia.
  - apply Hpanic. reflexivity.
Defined.

(** X10: whatever [OnAcknowledgementPacket] returns, it leaves the provider
    channel, the pending changes, the height mapping, the
    outstanding-downtime set, the next queue index, the events and the
    parameters as they are; the queue stays or loses its head; and the only
    calls it makes to the channel keeper are close requests. *)
Theorem OnAcknowledgementPacket_leaves_store `{!ChannelKeeper CK} `{!CCVTypes}
    (ctx : Context) (packet : Packet) (ack : Acknowledgement)
    (w w' : World CK) (err : option Error) :
  OnAcknowledgementPacket ctx packet ack w = Ok err w' ->
  providerChannel w' = providerChannel w
  ∧ pendingChanges w' = pendingChanges w
  ∧ heightValsetUpdateID w' = heightValsetUpdateID w
  ∧ outstandingDowntime w' = outstandingDowntime w
  ∧ pendingPacketsIdx w' = pendingPacketsIdx w
  ∧ events w' = events w
  ∧ params w' = params w
  ∧ (pendingPackets w' = pendingPackets w
     ∨ pendingPackets w' = tail (pendingPackets w))
  ∧ ∃ closes, calls w' = calls w ++ closes
              ∧ Forall (fun call => ∃ portID channelID,
                                      call = CallChanCloseInit portID channelID) closes.
Proof.
  intros Hrun.
  destruct (OnAcknowledgementPacket_frame ctx packet ack w w' err Hrun)
    as (Hframe & Hq & Hcalls).
  split_and!; [rewrite Hframe; done..| |exact Hcalls].
  destruct Hq as [[Hq _]|[Hq _]]; auto.
Qed.

Lemma OnAcknowledgementPacket_leaves_store_witness :
  ∃ w', OnAcknowledgementPacket ctx0 (packetOn "channel-7" [x01])
          (Acknowledgement_Error "invalid slash packet") worldSlashSent = Ok None w'
        ∧ outstandingDowntime w' = outstandingDowntime worldSlashSent
        ∧ (pendingPackets w' = pendingPackets worldSlashSent
           ∨ pendingPackets w' = tail (pendingPackets worldSlashSent)).
Proof.
  destruct (OnAcknowledgementPacket ctx0 (packetOn "channel-7" [x01])
              (Acknowledgement_Error "invalid slash packet") worldSlashSent)
    as [err w'|] eqn:Hrun; [|vm_compute in Hrun; discriminate].
  destruct (OnAcknowledgementPacket_leaves_store ctx0 (packetOn "channel-7" [x01])
              (Acknowledgement_Error "invalid slash packet") worldSlashSent w' err Hrun)
    as (_ & _ & _ & Hout & _ & _ & _ & Hq & _).
  exists w'. split_and!; try done.
  vm_compute in Hrun. by injection Hrun as <- _.
Defined.

(** What [QueueSlashPacket] does when it does not skip: the world after it,
    entry by entry. *)
Lemma QueueSlashPacket_queued `{!ChannelKeeper CK} `{!CCVTypes}
    (ctx : Context) (validator : Validator) (valsetUpdateID : Z)
    (infraction : Infraction) (w : World CK) :
  (infraction = Infraction_INFRACTION_DOWNTIME ->
   Address validator ∉ outstandingDowntime w) ->
  QueueSlashPacket ctx validator valsetUpdateID infraction w
  = Ok tt
      {| params := params w;
         providerChannel := providerChannel w;
         pendingChanges := pendingChanges w;
         heightValsetUpdateID := heightValsetUpdateID w;
         outstandingDowntime :=
           if decide (infraction = Infraction_INFRACTION_DOWNTIME)
           then {[Address validator]} ∪ outstandingDowntime w
           else outstandingDowntime w;
         pendingPackets :=
           pendingPackets w ++
           [{| Type_ := SlashPacket;
               Data := ConsumerPacketData_SlashPacketData
                         (NewSlashPacketData validator valsetUpdateID infraction);
               Idx := pendingPacketsIdx w |}];
         pendingPacketsIdx := (pendingPacketsIdx w + 1)%N;
         slashRecord := slashRecord w;
         channelKeeper := channelKeeper w;
         calls := calls w;
         events :=
           events w ++
           [EventTypeConsumerSlashRequest (Address validator) valsetUpdateID infraction];
         logs := logs w ++ [(LogInfo, "SlashPacket enqueued")] |}.
Proof.
  intros Hout. unfold QueueSlashPacket.
  destruct (decide (infraction = Infraction_INFRACTION_DOWNTIME)) as [Hd|Hd].
  - rewrite (bool_decide_eq_true_2 _ Hd). run.
    rewrite (bool_decide_eq_false_2 _ (Hout Hd)). reflexivity.
  - rewrite (bool_decide_eq_false_2 _ Hd). run. reflexivity.
Qed.

(** X11: the life of a slash packet. On a bound consumer with an empty
    queue, where sending is permitted, the transport accepts the packet and
    the sent bytes decode as a slash packet: [QueueSlashPacket] queues the
    packet, [SendPackets] sends it and keeps it as the head of the queue with
    the slash record awaiting the reply, and [OnAcknowledgementPacket] with
    the V1 result or the slash-handled result returns nil, empties the queue
    and clears the slash record. The next queue index has advanced by one and
    the acknowledgement leaves the outstanding-downtime set as the queueing
    made it. *)
Theorem slash_packet_life_cycle `{!ChannelKeeper CK} `{!CCVTypes}
    (ctx : Context) (validator : Validator) (valsetUpdateID : Z)
    (infraction : Infraction) (w : World CK) (channelID : string) (ck : CK)
    (packet : Packet) (res0 : byte) :
  let entry :=
    {| Type_ := SlashPacket;
       Data := ConsumerPacketData_SlashPacketData
                 (NewSlashPacketData validator valsetUpdateID infraction);
       Idx := pendingPacketsIdx w |} in
  pendingPackets w = [] ->
  providerChannel w = Some channelID ->
  (infraction = Infraction_INFRACTION_DOWNTIME ->
   Address validator ∉ outstandingDowntime w) ->
  PacketSendingPermitted ctx w = Ok true w ->
  channelKeeper_SendPacket (channelKeeper w) ConsumerPortID channelID
    (GetBytes entry) (CcvTimeoutPeriod (params w)) = (None, ck) ->
  GetData packet = GetBytes entry ->
  UnmarshalJSON (GetBytes entry) = Some {| V1Type := SlashPacket |} ->
  res0 = V1Result ∨ res0 = SlashPacketHandledResult ->
  ∃ w1 w2 w3,
    QueueSlashPacket ctx validator valsetUpdateID infraction w = Ok tt w1
    ∧ pendingPackets w1 = [entry]
    ∧ SendPackets ctx w1 = Ok tt w2
    ∧ pendingPackets w2 = [entry]
    ∧ state (slashRecord w2) = WaitingForReply
    ∧ calls w2 = calls w ++ [sendOf channelID w entry]
    ∧ OnAcknowledgementPacket ctx packet (Acknowledgement_Result (Some [res0])) w2
      = Ok None w3
    ∧ pendingPackets w3 = []
    ∧ state (slashRecord w3) = Idle
    ∧ pendingPacketsIdx w3 = (pendingPacketsIdx w + 1)%N
    ∧ outstandingDowntime w3 = outstandingDowntime w1
    ∧ calls w3 = calls w2.
Proof.
  intros entry Hq Hpc Hout Hperm Hsend Hdata Hdec Hres.
  pose proof (QueueSlashPacket_queued ctx validator valsetUpdateID infraction w Hout)
    as Hqueue.
  fold entry in Hqueue. rewrite Hq in Hqueue. simpl in Hqueue.
  match type of Hqueue with _ = Ok tt ?w0 => set (w1 := w0) in * end.
  assert (Hnd : NoDup (map Idx (pendingPackets w1))).
  { simpl. apply NoDup_singleton. }
  assert (Hperm1 : PacketSendingPermitted ctx w1 = Ok true w1).
  { unfold PacketSendingPermitted, gets in *. simpl.
    injection Hperm as Hperm. by rewrite Hperm. }
  destruct (SendPackets_slash_sent ctx channelID w1 w1 [] [] entry ck)
    as (w2 & Hsent & Hq2 & Hst2 & Hcalls2); try done.
  { apply SentAll_nil. }
  destruct (SendPackets_prefix_frame ctx channelID w1 Hpc Hnd)
    as (m & n & w2' & Hsent' & _ & _ & _ & _ & _ & Hframe & _).
  rewrite Hsent in Hsent'. injection Hsent' as <-.
  assert (Hout2 : outstandingDowntime w2 = outstandingDowntime w1)
    by (rewrite Hframe; done).
  assert (Hidx2 : pendingPacketsIdx w2 = pendingPacketsIdx w1)
    by (rewrite Hframe; done).
  assert (Hack : OnAcknowledgementPacket ctx packet
                   (Acknowledgement_Result (Some [res0])) w2
                 = Ok None
                     (with_pendingPackets (tail (pendingPackets w2))
                        (with_slashRecord {| state := Idle; backoffUntil := 0 |} w2))).
  { unfold OnAcknowledgementPacket, OnAcknowledgementPacket_error.
    cbn [GetResult GetError]. rewrite Hdata, Hdec.
    rewrite decide_False by done.
    destruct Hres as [-> | ->].
    - rewrite decide_True by done. reflexivity.
    - destruct (decide (SlashPacketHandledResult = V1Result)); [reflexivity|].
      rewrite decide_True by done. reflexivity. }
  exists w1, w2. eexists.
  split; [exact Hqueue|]. split; [reflexivity|]. split; [exact Hsent|].
  split; [exact Hq2|]. split; [exact Hst2|]. split; [exact Hcalls2|].
  split; [exact Hack|]. cbn [pendingPackets slashRecord pendingPacketsIdx
    outstandingDowntime calls with_pendingPackets with_slashRecord state].
  rewrite Hq2, Hidx2, Hout2. done.
Qed.

Lemma slash_packet_life_cycle_witness :
  ∃ w1 w2 w3,
    QueueSlashPacket ctx0 validatorV1 1 Infraction_INFRACTION_DOWNTIME worldBound
    = Ok tt w1
    ∧ pendingPackets w1 = [slashV1]
    ∧ SendPackets ctx0 w1 = Ok tt w2
    ∧ pendingPackets w2 = [slashV1]
    ∧ state (slashRecord w2) = WaitingForReply
    ∧ calls w2 = [CallSendPacket "channel-0" "consumer" [x01] 100]
    ∧ OnAcknowledgementPacket ctx0 (packetOn "channel-0" [x01])
        (Acknowledgement_Result (Some [x02])) w2 = Ok None w3
    ∧ pendingPackets w3 = []
    ∧ state (slashRecord w3) = Idle
    ∧ pendingPacketsIdx w3 = 1%N
    ∧ outstandingDowntime w3 = outstandingDowntime w1
    ∧ calls w3 = calls w2.
Proof.
  destruct (slash_packet_life_cycle ctx0 validatorV1 1 Infraction_INFRACTION_DOWNTIME
              worldBound "channel-0"
              {| mockChannels := mockChannels mockKeeper0;
                 mockSendPacket := [];
                 mockChanCloseInit := [] |}
              (packetOn "channel-0" [x01]) x02)
    as (w1 & w2 & w3 & H1 & H2 & H3 & H4 & H5 & H6 & H7 & H8 & H9 & H10 & H11 & H12);
    try reflexivity.
  - intros _. vm_compute. set_solver.
  - right. reflexivity.
  - exists w1, w2, w3. split_and!; done.
Defined.

(** *** Invariants over runs of keeper calls *)

(** [QueueSlashPacket] either skips, or appends one slash packet under the
    next index; it leaves the provider channel and the slash record alone. *)
Lemma QueueSlashPacket_cases `{!ChannelKeeper CK} `{!CCVTypes}
    (ctx : Context) (validator : Validator) (valsetUpdateID : Z)
    (infraction : Infraction) (w w' : World CK) :
  QueueSlashPacket ctx validator valsetUpdateID infraction w = Ok tt w' ->
  providerChannel w' = providerChannel w
  ∧ slashRecord w' = slashRecord w
  ∧ ((pendingPackets w' = pendingPackets w
      ∧ pendingPacketsIdx w' = pendingPacketsIdx w)
     ∨ ∃ p, pendingPackets w' = pendingPackets w ++ [p]
            ∧ Idx p = pendingPacketsIdx w
            ∧ pendingPacketsIdx w' = (pendingPacketsIdx w + 1)%N).
Proof.
  intros Hrun.
  destruct (decide (infraction = Infraction_INFRACTION_DOWNTIME
                    ∧ Address validator ∈ outstandingDowntime w)) as [[Hd Hin]|Hno].
  - unfold QueueSlashPacket in Hrun. rewrite (bool_decide_eq_true_2 _ Hd) in Hrun.
    run. rewrite (bool_decide_eq_true_2 _ Hin) in Hrun.
    injection Hrun as <-. auto.
  - rewrite QueueSlashPacket_queued in Hrun by (intros Hd Hin; by apply Hno).
    injection Hrun as <-. simpl. split_and!; try done. right. eauto.
Qed.

Lemma NoDup_Idx_drop (m : nat) (l : list ConsumerPacketDataWithIdx) :
  NoDup (map Idx l) -> NoDup (map Idx (drop m l)).
Proof.
  intros Hnd. rewrite <- (take_drop m l), map_app in Hnd.
  by apply NoDup_app in Hnd as (_ & _ & Hnd).
Qed.

(** Every step keeps the queue indexes distinct and below the next index. *)
Lemma KeeperStep_queueIndexed `{!ChannelKeeper CK} `{!CCVTypes} (w w' : World CK) :
  KeeperStep w w' -> queueIndexed w -> queueIndexed w'.
Proof.
  intros Hstep [Hnd Hlt]. unfold queueIndexed.
  destruct Hstep as [ctx packet newChanges err w w' Hrun
                    |ctx validator valsetUpdateID infraction w w' Hrun
                    |ctx w w' Hrun
                    |ctx packet ack err w w' Hrun].
  - apply OnRecvVSCPacket_frame in Hrun as (-> & -> & _). done.
  - apply QueueSlashPacket_cases in Hrun
      as (_ & _ & [[-> ->]|(p & -> & Hidx & ->)]); [done|].
    split.
    + rewrite map_app. apply NoDup_app. split; [done|].
      split; [|apply NoDup_singleton].
      intros i Hi ->%list_elem_of_singleton.
      apply list_elem_of_In, in_map_iff in Hi as (q & Hq & Hin).
      apply list_elem_of_In in Hin.
      rewrite Forall_forall in Hlt. specialize (Hlt q Hin). simpl in Hlt. lia.
    + apply Forall_app. split.
      * eapply Forall_impl; [exact Hlt|]. simpl. intros; lia.
      * apply Forall_singleton. lia.
  - destruct (providerChannel w) as [channelID|] eqn:Hpc.
    + destruct (SendPackets_prefix_frame ctx channelID w Hpc Hnd)
        as (m & n & w'' & Hrun' & _ & _ & _ & _ & _ & Hframe & _).
      rewrite Hrun in Hrun'. injection Hrun' as <-. rewrite Hframe. simpl.
      split; [by apply NoDup_Idx_drop|by apply Forall_drop].
    + unfold SendPackets in Hrun. unfold bind at 1 in Hrun.
      unfold GetProviderChannel at 1, gets at 1 in Hrun. rewrite Hpc in Hrun.
      by injection Hrun as <-.
  - apply OnAcknowledgementPacket_frame in Hrun as (Hframe & Hq & _).
    assert (Hidx : pendingPacketsIdx w' = pendingPacketsIdx w)
      by (rewrite Hframe; done).
    rewrite Hidx. destruct Hq as [[-> _]|[-> _]]; [done|].
    destruct (pendingPackets w) as [|p rest]; [done|]. simpl in *.
    apply NoDup_cons in Hnd as [_ Hnd]. apply Forall_cons in Hlt as [_ Hlt]. done.
Qed.

(** X12: over any run of calls of [OnRecvVSCPacket], [QueueSlashPacket],
    [SendPackets] and [OnAcknowledgementPacket], the indexes of the queue stay
    distinct and below the next index to give out. *)
Theorem queueIndexed_invariant `{!ChannelKeeper CK} `{!CCVTypes} (w w' : World CK) :
  queueIndexed w -> rtc KeeperStep w w' -> queueIndexed w'.
Proof.
  intros Hinv Hrun. induction Hrun as [w|w w1 w' Hstep _ IH]; [done|].
  apply IH. by apply (KeeperStep_queueIndexed w w1).
Qed.

(** Every step keeps a bound provider channel. *)
Lemma KeeperStep_providerChannel `{!ChannelKeeper CK} `{!CCVTypes}
    (w w' : World CK) (channelID : string) :
  KeeperStep w w' -> providerChannel w = Some channelID ->
  providerChannel w' = Some channelID.
Proof.
  intros Hstep Hpc.
  destruct Hstep as [ctx packet newChanges err w w' Hrun
                    |ctx validator valsetUpdateID infraction w w' Hrun
                    |ctx w w' Hrun
                    |ctx packet ack err w w' Hrun].
  - apply OnRecvVSCPacket_step in Hrun. destruct err as [e|]; [by subst|].
    destruct Hrun as (Hbound & [Hnone|Hsame] & _); congruence.
  - apply QueueSlashPacket_cases in Hrun as (Hsame & _). congruence.
  - destruct (SendPackets_frame ctx w) as (w'' & Hrun' & Hframe).
    rewrite Hrun in Hrun'. injection Hrun' as <-. rewrite Hframe. done.
  - apply OnAcknowledgementPacket_frame in Hrun as (Hframe & _).
    rewrite Hframe. done.
Qed.

(** X13: once a provider channel is bound, no run of calls of the four
    methods changes it. *)
Theorem providerChannel_immutable `{!ChannelKeeper CK} `{!CCVTypes}
    (w w' : World CK) (channelID : string) :
  providerChannel w = Some channelID -> rtc KeeperStep w w' ->
  providerChannel w' = Some channelID.
Proof.
  intros Hpc Hrun. induction Hrun as [w|w w1 w' Hstep _ IH]; [done|].
  apply IH. by apply (KeeperStep_providerChannel w w1).
Qed.

(** Every step keeps a slash packet at the head of the queue while the slash
    record awaits a reply. *)
Lemma KeeperStep_headOfLine `{!ChannelKeeper CK} `{!CCVTypes} (w w' : World CK) :
  KeeperStep w w' ->
  queueIndexed w ->
  (state (slashRecord w) = WaitingForReply -> slashAtHead w) ->
  state (slashRecord w') = WaitingForReply -> slashAtHead w'.
Proof.
  intros Hstep [Hnd _] Hinv Hwait. unfold slashAtHead in *.
  destruct Hstep as [ctx packet newChanges err w w' Hrun
                    |ctx validator valsetUpdateID infraction w w' Hrun
                    |ctx w w' Hrun
                    |ctx packet ack err w w' Hrun].
  - apply OnRecvVSCPacket_frame in Hrun as (Hq & _ & Hrec & _).
    rewrite Hq. apply Hinv. by rewrite <- Hrec.
  - apply QueueSlashPacket_cases in Hrun as (_ & Hrec & Hq).
    rewrite Hrec in Hwait. destruct (Hinv Hwait) as (p & rest & Hhead & Hty).
    destruct Hq as [[-> _]|(q & -> & _)]; [eauto|].
    rewrite Hhead. simpl. eauto.
  - destruct (providerChannel w) as [channelID|] eqn:Hpc.
    + destruct (SendPackets_prefix_frame ctx channelID w Hpc Hnd)
        as (m & n & w'' & Hrun' & _ & _ & _ & Hall & _ & Hframe & Hrec).
      rewrite Hrun in Hrun'. injection Hrun' as <-.
      assert (Hq : pendingPackets w' = drop m (pendingPackets w))
        by (rewrite Hframe; done).
      rewrite Hq. destruct Hrec as [Hrec|(_ & p & Hp & Hty)].
      * rewrite Hrec in Hwait. destruct (Hinv Hwait) as (p & rest & Hhead & Hty).
        destruct m as [|m]; [rewrite drop_0; eauto|].
        rewrite Hhead in Hall. simpl in Hall.
        apply Forall_cons in Hall as [Hno _]. done.
      * exists p, (drop (S m) (pendingPackets w)). split; [|done].
        by apply drop_S.
    + unfold SendPackets in Hrun. unfold bind at 1 in Hrun.
      unfold GetProviderChannel at 1, gets at 1 in Hrun. rewrite Hpc in Hrun.
      injection Hrun as <-. auto.
  - apply OnAcknowledgementPacket_frame in Hrun as (_ & Hq & _).
    destruct Hq as [[Hq [Hrec|Hback]]|[_ Hidle]]; [|congruence..].
    rewrite Hq. apply Hinv. by rewrite <- Hrec.
Qed.

(** X14: head-of-line blocking is an invariant. From a world with distinct
    queue indexes in which a slash packet heads the queue whenever the slash
    record awaits a reply, every run of calls of the four methods ends in a
    world where the same holds. *)
Theorem headOfLine_invariant `{!ChannelKeeper CK} `{!CCVTypes} (w w' : World CK) :
  queueIndexed w ->
  (state (slashRecord w) = WaitingForReply -> slashAtHead w) ->
  rtc KeeperStep w w' ->
  state (slashRecord w') = WaitingForReply -> slashAtHead w'.
Proof.
  intros Hidx Hinv Hrun. induction Hrun as [w|w w1 w' Hstep _ IH]; [done|].
  apply IH.
  - by apply (KeeperStep_queueIndexed w w1).
  - by apply (KeeperStep_headOfLine w w1).
Qed.

Lemma worldBound_queueIndexed : queueIndexed worldBound.
Proof. split; [apply NoDup_nil_2|apply Forall_nil_2]. Qed.

(** A run from the bound consumer: a downtime slash for V1 is queued, the
    queue is sent, and a batch acknowledging the slash is received. *)
Lemma worldBound_run :
  ∃ w1 w2 w3,
    QueueSlashPacket ctx0 validatorV1 1 Infraction_INFRACTION_DOWNTIME worldBound
    = Ok tt w1
    ∧ SendPackets ctx0 w1 = Ok tt w2
    ∧ OnRecvVSCPacket ctx0 (packetOn "channel-0" []) ackBatch w2 = Ok None w3
    ∧ state (slashRecord w3) = WaitingForReply
    ∧ rtc KeeperStep worldBound w3.
Proof.
  eexists _, _, _.
  split; [vm_compute; reflexivity|].
  split; [vm_compute; reflexivity|].
  split; [vm_compute; reflexivity|].
  split; [reflexivity|].
  eapply rtc_l; [eapply (Step_QueueSlashPacket ctx0 validatorV1 1
                           Infraction_INFRACTION_DOWNTIME); vm_compute; reflexivity|].
  eapply rtc_l; [eapply (Step_SendPackets ctx0); vm_compute; reflexivity|].
  eapply rtc_l; [eapply (Step_OnRecvVSCPacket ctx0 (packetOn "channel-0" []) ackBatch);
                 vm_compute; reflexivity|].
  apply rtc_refl.
Defined.

Lemma queueIndexed_invariant_witness :
  ∃ w3, rtc KeeperStep worldBound w3
        ∧ state (slashRecord w3) = WaitingForReply
        ∧ queueIndexed w3.
Proof.
  destruct worldBound_run as (w1 & w2 & w3 & _ & _ & _ & Hst & Hrun).
  exists w3. split_and!; [done..|].
  exact (queueIndexed_invariant worldBound w3 worldBound_queueIndexed Hrun).
Defined.

Lemma providerChannel_immutable_witness :
  ∃ w3, rtc KeeperStep worldBound w3
        ∧ state (slashRecord w3) = WaitingForReply
        ∧ providerChannel w3 = Some "channel-0".
Proof.
  destruct worldBound_run as (w1 & w2 & w3 & _ & _ & _ & Hst & Hrun).
  exists w3. split_and!; [done..|].
  exact (providerChannel_immutable worldBound w3 "channel-0" eq_refl Hrun).
Defined.

Lemma headOfLine_invariant_witness :
  ∃ w3, rtc KeeperStep worldBound w3
        ∧ state (slashRecord w3) = WaitingForReply
        ∧ slashAtHead w3.
Proof.
  destruct worldBound_run as (w1 & w2 & w3 & _ & _ & _ & Hst & Hrun).
  exists w3. split_and!; [done..|].
  apply (headOfLine_invariant worldBound w3 worldBound_queueIndexed); [|done..].
  discriminate.
Defined.

(** *** When [OnRecvVSCPacket] panics, and what only it does *)

(** X15: [OnRecvVSCPacket] panics exactly when the batch passes validation
    and a provider channel is bound that differs from the destination channel
    of the packet; the panic then names both channels. *)
Theorem OnRecvVSCPacket_panics_iff `{!ChannelKeeper CK} `{!CCVTypes}
    (ctx : Context) (packet : Packet) (newChanges : ValidatorSetChangePacketData)
    (w : World CK) (v : PanicValue) :
  OnRecvVSCPacket ctx packet newChanges w = Panicked v
  ↔ Validate newChanges = None
    ∧ ∃ channelID, providerChannel w = Some channelID
                   ∧ channelID ≠ DestinationChannel packet
                   ∧ v = PanicUnknownChannel (DestinationChannel packet) channelID.
Proof.
  assert (Hpanic : ∀ channelID,
            Validate newChanges = None ->
            providerChannel w = Some channelID ->
            channelID ≠ DestinationChannel packet ->
            OnRecvVSCPacket ctx packet newChanges w
            = Panicked (PanicUnknownChannel (DestinationChannel packet) channelID)).
  { intros channelID Hval Hpc Hne. unfold OnRecvVSCPacket. rewrite Hval.
    unfold bind at 1. unfold GetProviderChannel at 1, gets at 1. rewrite Hpc.
    rewrite decide_True by done. reflexivity. }
  split.
  - intros Hrun. destruct (Validate newChanges) as [e|] eqn:Hval.
    { unfold OnRecvVSCPacket in Hrun. rewrite Hval in Hrun. discriminate. }
    split; [done|].
    destruct (providerChannel w) as [channelID|] eqn:Hpc.
    + destruct (decide (channelID = DestinationChannel packet)) as [->|Hne].
      * rewrite (OnRecvVSCPacket_valid_exact ctx packet newChanges w Hval) in Hrun
          by (by right).
        discriminate.
      * rewrite (Hpanic channelID eq_refl eq_refl Hne) in Hrun.
        injection Hrun as <-. eauto.
    + rewrite (OnRecvVSCPacket_valid_exact ctx packet newChanges w Hval) in Hrun
        by (by left).
      discriminate.
  - intros (Hval & channelID & Hpc & Hne & ->). by apply Hpanic.
Qed.

Lemma OnRecvVSCPacket_panics_iff_witness :
  OnRecvVSCPacket ctx0 (packetOn "channel-5" []) ackBatch worldBound
  = Panicked (PanicUnknownChannel "channel-5" "channel-0").
Proof.
  apply (OnRecvVSCPacket_panics_iff ctx0 (packetOn "channel-5" []) ackBatch worldBound).
  split; [reflexivity|]. exists "channel-0". split_and!; done.
Defined.

(** X17: [QueueSlashPacket], [SendPackets] and [OnAcknowledgementPacket]
    never remove an address from the outstanding-downtime set: every address
    in the set before the call is in the set after it. *)
Theorem outstandingDowntime_only_grows `{!ChannelKeeper CK} `{!CCVTypes}
    (ctx : Context) (validator : Validator) (valsetUpdateID : Z)
    (infraction : Infraction) (packet : Packet) (ack : Acknowledgement)
    (err : option Error) (w w' : World CK) :
  QueueSlashPacket ctx validator valsetUpdateID infraction w = Ok tt w'
  ∨ SendPackets ctx w = Ok tt w'
  ∨ OnAcknowledgementPacket ctx packet ack w = Ok err w' ->
  outstandingDowntime w ⊆ outstandingDowntime w'.
Proof.
  intros [Hrun|[Hrun|Hrun]].
  - destruct (decide (infraction = Infraction_INFRACTION_DOWNTIME
                      ∧ Address validator ∈ outstandingDowntime w)) as [[Hd Hin]|Hno].
    + unfold QueueSlashPacket in Hrun. rewrite (bool_decide_eq_true_2 _ Hd) in Hrun.
      run. rewrite (bool_decide_eq_true_2 _ Hin) in Hrun. by injection Hrun as <-.
    + rewrite QueueSlashPacket_queued in Hrun by (intros Hd Hin; by apply Hno).
      injection Hrun as <-. cbn [outstandingDowntime].
      destruct (decide (infraction = Infraction_INFRACTION_DOWNTIME)); set_solver.
  - destruct (SendPackets_frame ctx w) as (w'' & Hrun' & Hframe).
    rewrite Hrun in Hrun'. injection Hrun' as <-. by rewrite Hframe.
  - apply OnAcknowledgementPacket_frame in Hrun as (Hframe & _). by rewrite Hframe.
Qed.

Lemma outstandingDowntime_only_grows_witness :
  outstandingDowntime worldSlashSent
  ⊆ outstandingDowntime
      (with_pendingPackets [maturedU1]
         (with_slashRecord {| state := Idle; backoffUntil := 0 |} worldSlashSent)).
Proof.
  apply (outstandingDowntime_only_grows ctx0 validatorV1 1
           Infraction_INFRACTION_DOWNTIME (packetOn "channel-0" [x01])
           (Acknowledgement_Result (Some [x02])) None worldSlashSent).
  right. right. reflexivity.
Defined.
